(** * eagles-claude-config: the documentation Path Gate and the Instinct CLI

    A shallow embedding of the two scripts of the repository,

      - [hooks/doc-blocker.py], the hook that allows or denies the write of
        a Markdown file from the path of the request, and
      - [skills/continuous-learning-v2/scripts/instinct-cli.py], the
        command-line tool over the JSON store of instinct records,

    followed by the properties of their behaviour.

    Conventions of the embedding.

      - A value produced by [json.load] is a [pyval].  A JSON object becomes
        a Python [dict], kept here as the list of its items in insertion
        order; its keys are strings and pairwise distinct.
      - A Python [str] is a [string] that holds the bytes of its UTF-8
        encoding; its characters are counted and cut as such.
      - A Python [float] is a binary64 number, the kernel's [float].
      - A run that ends in an uncaught exception is [Raised].  The kind of
        the exception and what was printed before it are not recorded.
      - A file that holds JSON text is represented by the value the text
        parses to.  The directory of the store is taken to exist and the
        store to be writable.
      - What [print] writes is kept as the list of the calls, each with the
        values that fill its format string.
      - What the machine decides (the memory for a string, the file that a
        path names, whether a file can be written) is a parameter.

    A script is compiled whole before it runs.  [doc-blocker.py] has a string
    literal that is not closed on its line 4, and [instinct-cli.py] has one
    on its line 61, in the function [evolve]: module [Source] embeds the rule
    of Python for the end of a string literal, and the run of the gate and
    the call of [evolve] are embedded as the text stands.  The other
    functions of [instinct-cli.py] are embedded each from its own lines. *)

From Stdlib Require Import ZArith List String Ascii Bool Lia QArith Qround.
From Stdlib Require Import Permutation Sorted.
From Stdlib Require Import Floats.
Import ListNotations.

Set Warnings "-inexact-float".

Local Open Scope Z_scope.
Local Open Scope string_scope.
Local Open Scope list_scope.

(** ** Python values and uncaught exceptions *)

Module Py.

Unset Elimination Schemes.
Inductive pyval : Type :=
| PNone
| PBool (b : bool)
| PInt (z : Z)
| PFloat (f : float)
| PStr (s : string)
| PList (l : list pyval)
| PDict (kvs : list (string * pyval)).
Set Elimination Schemes.

(** The outcome of running a piece of code: a value, or an uncaught
    exception, which ends the process with a traceback and exit status 1. *)
Inductive result (A : Type) : Type :=
| Ok (a : A)
| Raised.

Arguments Ok {A} a.
Arguments Raised {A}.

Definition bind {A B : Type} (r : result A) (k : A -> result B) : result B :=
  match r with
  | Ok a => k a
  | Raised => Raised
  end.

Notation "x <- r ;; k" := (bind r (fun x => k))
  (at level 61, r at next level, right associativity).

Fixpoint mapM {A B : Type} (f : A -> result B) (l : list A) : result (list B) :=
  match l with
  | [] => Ok []
  | x :: l' => y <- f x ;; ys <- mapM f l' ;; Ok (y :: ys)
  end.

(** *** Dictionaries *)

Fixpoint dict_lookup (k : string) (kvs : list (string * pyval)) : option pyval :=
  match kvs with
  | [] => None
  | (k', v) :: kvs' => if String.eqb k k' then Some v else dict_lookup k kvs'
  end.

(** [d[k] = v]: the item is replaced where it stands, or added last. *)
Fixpoint dict_set (k : string) (v : pyval) (kvs : list (string * pyval))
  : list (string * pyval) :=
  match kvs with
  | [] => [(k, v)]
  | (k', v') :: kvs' =>
      if String.eqb k k' then (k', v) :: kvs' else (k', v') :: dict_set k v kvs'
  end.

(** [x.get(k, dflt)].  Only a [dict] has the method; on any other value the
    attribute lookup raises [AttributeError]. *)
Definition py_get (x : pyval) (k : string) (dflt : pyval) : result pyval :=
  match x with
  | PDict kvs =>
      match dict_lookup k kvs with
      | Some v => Ok v
      | None => Ok dflt
      end
  | _ => Raised
  end.

(** [x[k]] for a string [k]: [KeyError] when a [dict] lacks the key,
    [TypeError] on the other values ([list] and [str] want integer indices,
    the rest are not subscriptable). *)
Definition py_getitem (x : pyval) (k : string) : result pyval :=
  match x with
  | PDict kvs =>
      match dict_lookup k kvs with
      | Some v => Ok v
      | None => Raised
      end
  | _ => Raised
  end.

(** [x[k] = v] on a [dict]. *)
Definition py_setitem (x : pyval) (k : string) (v : pyval) : result pyval :=
  match x with
  | PDict kvs => Ok (PDict (dict_set k v kvs))
  | _ => Raised
  end.

(** *** Strings

    A [str] is kept as the bytes of its UTF-8 encoding.  A character is one
    byte that is not of the form 10xxxxxx, with the bytes of that form that
    follow it. *)

Definition continues (c : ascii) : bool :=
  match c with
  | Ascii _ _ _ _ _ _ b6 b7 => b7 && negb b6
  end.

(** [len(s)]: the number of characters of [s]. *)
Fixpoint py_len (s : string) : nat :=
  match s with
  | EmptyString => O
  | String c s' => if continues c then py_len s' else S (py_len s')
  end.

(** [s[:n]]: the first [n] characters of [s], all of [s] when it has fewer. *)
Fixpoint take_chars (n : nat) (s : string) : string :=
  match s with
  | EmptyString => EmptyString
  | String c s' =>
      if continues c then String c (take_chars n s')
      else
        match n with
        | O => EmptyString
        | S n' => String c (take_chars n' s')
        end
  end.

(** The characters of [s], in order, each as a [str]. *)
Fixpoint chars (s : string) : list string :=
  match s with
  | EmptyString => []
  | String c s' =>
      match s' with
      | EmptyString => [String c EmptyString]
      | String d _ =>
          if continues d then
            match chars s' with
            | [] => [String c EmptyString]
            | h :: t => String c h :: t
            end
          else String c EmptyString :: chars s'
      end
  end.

(** [s.endswith(suffix)]: [s] is [suffix], or what follows its first
    character ends with [suffix]. *)
Fixpoint endswith (s suffix : string) : bool :=
  String.eqb s suffix ||
  match s with
  | EmptyString => false
  | String _ s' => endswith s' suffix
  end.

(** [a in s] for two strings: [a] occurs as a contiguous part of [s]. *)
Fixpoint str_in (a s : string) : bool :=
  prefix a s ||
  match s with
  | EmptyString => false
  | String _ s' => str_in a s'
  end.

End Py.

(** ** The text of a script *)

Module Source.
Import Py.

Definition backslash : ascii := Ascii.ascii_of_nat 92.
Definition double_quote : ascii := Ascii.ascii_of_nat 34.
Definition dq : string := String double_quote EmptyString.

(** Python compiles a script whole before it runs its first statement, and a
    text that it cannot split into tokens ends the run there, in
    [SyntaxError].  Of the splitting into tokens this is the part that finds
    where a string literal ends.  A literal opened by one quote ends at the
    next such quote of the line that no backslash precedes; a literal opened
    by three quotes ends at the next three; a [#] outside a literal starts a
    comment that runs to the end of the line. *)
Inductive scan_state : Type :=
| Code
| Literal (q : ascii)
| Escaped (q : ascii)
| Long (q : ascii)
| LongEscaped (q : ascii).

Definition is_quote (c : ascii) : bool :=
  Ascii.eqb c "'"%char || Ascii.eqb c double_quote.

Fixpoint scan (st : scan_state) (line : string) : scan_state :=
  match line with
  | EmptyString => st
  | String c rest =>
      match st with
      | Code =>
          if is_quote c then
            match rest with
            | String c1 (String c2 rest') =>
                if Ascii.eqb c1 c && Ascii.eqb c2 c then scan (Long c) rest'
                else scan (Literal c) rest
            | _ => scan (Literal c) rest
            end
          else if Ascii.eqb c "#"%char then Code
          else scan Code rest
      | Literal q =>
          if Ascii.eqb c backslash then scan (Escaped q) rest
          else if Ascii.eqb c q then scan Code rest
          else scan (Literal q) rest
      | Escaped q => scan (Literal q) rest
      | Long q =>
          if Ascii.eqb c backslash then scan (LongEscaped q) rest
          else if Ascii.eqb c q then
            match rest with
            | String c1 (String c2 rest') =>
                if Ascii.eqb c1 q && Ascii.eqb c2 q then scan Code rest'
                else scan (Long q) rest
            | _ => scan (Long q) rest
            end
          else scan (Long q) rest
      | LongEscaped q => scan (Long q) rest
      end
  end.

(** The number of the first line at whose end a literal opened by one quote
    is still open ([SyntaxError: unterminated string literal]), the lines
    being numbered from [n]; the line after the last when a literal opened by
    three quotes is never closed.  A backslash that ends a line inside a
    literal joins the next line to it. *)
Fixpoint first_unterminated (st : scan_state) (n : nat) (lines : list string)
  : option nat :=
  match lines with
  | [] => match st with Code => None | _ => Some n end
  | l :: rest =>
      match scan st l with
      | Literal _ => Some n
      | Escaped q => first_unterminated (Literal q) (S n) rest
      | LongEscaped q => first_unterminated (Long q) (S n) rest
      | st' => first_unterminated st' (S n) rest
      end
  end.

Definition literals_close (lines : list string) : bool :=
  match first_unterminated Code 1 lines with
  | None => true
  | Some _ => false
  end.

(** The run of a text: its statements run when the text compiles. *)
Definition run_script {A : Type} (lines : list string) (statements : result A)
  : result A :=
  if literals_close lines then statements else Raised.

End Source.

(** ** hooks/doc-blocker.py *)

Module DocBlocker.
Import Py Source.

(** The script, line by line. *)
Definition source : list string :=
  ["import sys, json";
   EmptyString;
   "d = json.load(sys.stdin)";
   "p = d.get('tool_input', {}).get('file_path', '').replace('\', '/')";
   EmptyString;
   "# Allow non-.md files";
   "if not p.endswith('.md'):";
   "    sys.exit(0)";
   EmptyString;
   "# Allow these paths";
   "allowed = ['/docs/', 'CLAUDE', 'README', 'CHANGELOG', 'SKILL', 'rules/', 'agents/', 'memory/']";
   "for a in allowed:";
   "    if a in p:";
   "        sys.exit(0)";
   EmptyString;
   "# Block other .md files";
   "sys.exit(2)"].

Definition allowed : list string :=
  ["/docs/"; "CLAUDE"; "README"; "CHANGELOG"; "SKILL"; "rules/"; "agents/"; "memory/"].

(** Lines 7 to 17, on the path [p]: the argument of the [sys.exit] reached. *)
Definition decide (p : string) : Z :=
  if negb (endswith p ".md") then 0
  else if existsb (fun a => str_in a p) allowed then 0
  else 2.

Section Line4.

(** Line 4 is to bind [p].  As it stands in [source] it is not an expression
    of Python: the backslash keeps the quote after it inside the literal, and
    the literal opened last on the line is never closed.  What the line would
    compute, were it repaired, is not in the source: it is a parameter here,
    and no property of the script depends on it. *)
Variable line_4 : pyval -> result string.

(** Lines 3 to 17, from the value [d = json.load(sys.stdin)] to the exit
    status passed to [sys.exit]. *)
Definition statements (d : pyval) : result Z :=
  p <- line_4 d ;;
  Ok (decide p).

(** The run of the script on the input [d]. *)
Definition doc_blocker (d : pyval) : result Z :=
  run_script source (statements d).

End Line4.

End DocBlocker.

(** ** Python numbers *)

Module Num.
Import Py.

(** The numbers of Python that JSON text gives rise to: [int], which is
    unbounded, and [float].  [bool] is a subclass of [int] and takes part in
    arithmetic and comparisons as 0 or 1. *)
Inductive num : Type :=
| NInt (z : Z)
| NFloat (f : float).

Definition as_num (v : pyval) : option num :=
  match v with
  | PBool b => Some (NInt (if b then 1 else 0))
  | PInt z => Some (NInt z)
  | PFloat f => Some (NFloat f)
  | _ => None
  end.

(** The use of a value as a number in arithmetic with a number, in an order
    comparison with a number or under the format [.1f]: the other values
    raise [TypeError] (or [ValueError], for [str] under [.1f]). *)
Definition to_num (v : pyval) : result num :=
  match as_num v with
  | Some n => Ok n
  | None => Raised
  end.

(** The mathematical value of a number: a rational, an infinity, or none. *)
Inductive xval : Type :=
| XNaN
| XNegInf
| XFin (q : Q)
| XPosInf.

(** [m * 2 ^ e] *)
Definition dyadic (m e : Z) : Q :=
  match e with
  | Z0 => m # 1
  | Zpos p => (m * 2 ^ Zpos p) # 1
  | Zneg p => m # (2 ^ p)%positive
  end.

(** The value of a binary64 number given by sign, mantissa and exponent. *)
Definition sf_value (x : spec_float) : xval :=
  match x with
  | S754_nan => XNaN
  | S754_infinity s => if s then XNegInf else XPosInf
  | S754_zero _ => XFin 0
  | S754_finite s m e => XFin (dyadic (if s then Zneg m else Zpos m) e)
  end.

Definition float_value (f : float) : xval := sf_value (Prim2SF f).

Definition value (n : num) : xval :=
  match n with
  | NInt z => XFin (z # 1)
  | NFloat f => float_value f
  end.

(** Comparison of two numbers.  Python compares [int] with [float] exactly, and
    two [float]s as IEEE 754 does, which is by their values; a NaN is
    unordered with everything.  (On two [float]s the comparisons below are
    those of the machine: lemmas [py_lt_floats], [py_eq_floats] and
    [py_ge_floats].) *)
Definition xcompare (a b : xval) : option comparison :=
  match a, b with
  | XNaN, _ | _, XNaN => None
  | XNegInf, XNegInf => Some Eq
  | XNegInf, _ => Some Lt
  | _, XNegInf => Some Gt
  | XPosInf, XPosInf => Some Eq
  | XPosInf, _ => Some Gt
  | _, XPosInf => Some Lt
  | XFin p, XFin q => Some (p ?= q)%Q
  end.

Definition compare (a b : num) : option comparison := xcompare (value a) (value b).

(** [a < b] *)
Definition py_lt (a b : num) : bool :=
  match compare a b with Some Lt => true | _ => false end.

(** [a >= b] *)
Definition py_ge (a b : num) : bool :=
  match compare a b with Some Gt | Some Eq => true | _ => false end.

(** [a == b] *)
Definition py_eq (a b : num) : bool :=
  match compare a b with Some Eq => true | _ => false end.

(** [float(n)], the conversion Python applies to an [int] operand of an
    operation with a [float], and to an [int] under the format [.1f]: rounded
    to nearest, ties to even; [OverflowError] when the result is not finite. *)
Definition py_float (n : num) : result float :=
  match n with
  | NFloat f => Ok f
  | NInt z =>
      let f := SF2Prim (binary_normalize prec emax z 0 false) in
      if is_infinity f then Raised else Ok f
  end.

(** [int(n)]: a [float] is truncated towards zero; [ValueError] on a NaN and
    [OverflowError] on an infinity. *)
Definition py_int (n : num) : result Z :=
  match n with
  | NInt z => Ok z
  | NFloat f =>
      match Prim2SF f with
      | S754_nan => Raised
      | S754_infinity _ => Raised
      | S754_zero _ => Ok 0
      | S754_finite s m e =>
          let a := Z.shiftl (Zpos m) e in
          Ok (if s then - a else a)
      end
  end.

(** [n * 10] *)
Definition times10 (n : num) : num :=
  match n with
  | NInt z => NInt (z * 10)
  | NFloat f => NFloat (f * 10)%float
  end.

(** [max(a, b)] of two floats: [b] when [b > a], else [a]. *)
Definition py_max (a b : float) : float :=
  if (a <? b)%float then b else a.

(** The largest length of a sequence, [sys.maxsize] of a 64-bit build. *)
Definition maxsize : Z := 2 ^ 63 - 1.

Section Machine.

(** The length of the longest [str] the machine has the memory for. *)
Variable memory : Z.

(** [c * n] for a one-character string [c]: empty when [n <= 0];
    [OverflowError] when [n] exceeds [sys.maxsize], and [MemoryError] when the
    machine cannot hold a string of [n] characters. *)
Definition str_times (c : ascii) (n : Z) : result string :=
  if (maxsize <? n)%Z || (Z.max 0 memory <? n)%Z then Raised
  else Ok (string_of_list_ascii (repeat c (Z.to_nat n))).

End Machine.

(** [format(s, '10s')]: [s] on the left, filled with spaces to 10 columns. *)
Definition ljust10 (s : string) : string :=
  (s ++ string_of_list_ascii (repeat " "%char (10 - String.length s)))%string.

(** [x[:n]]: the first [n] characters of a [str], the first [n] items of a
    [list]; [TypeError] on the others. *)
Definition py_slice_to (n : nat) (x : pyval) : result pyval :=
  match x with
  | PStr s => Ok (PStr (take_chars n s))
  | PList l => Ok (PList (firstn n l))
  | _ => Raised
  end.

(** *** Keys of sets and of dictionaries *)

(** A [list] or a [dict] is unhashable: [TypeError]. *)
Definition hashable (v : pyval) : bool :=
  match v with
  | PList _ | PDict _ => false
  | _ => true
  end.

Definition hash_key (v : pyval) : result pyval :=
  if hashable v then Ok v else Raised.

Definition is_nan_key (v : pyval) : bool :=
  match v with
  | PFloat f => is_nan f
  | _ => false
  end.

(** Whether two hashable values are the same key: they are the same object, or
    they are equal under [==].  Numbers are equal by value across [bool], [int]
    and [float].  [json] decodes every [NaN] of a text to one and the same
    object, so a NaN read from JSON is found again as a key although it is not
    equal to itself. *)
Definition key_eq (a b : pyval) : bool :=
  match a, b with
  | PNone, PNone => true
  | PStr s, PStr t => String.eqb s t
  | _, _ =>
      match as_num a, as_num b with
      | Some m, Some n => (is_nan_key a && is_nan_key b) || py_eq m n
      | _, _ => false
      end
  end.

(** [x in s] for a set [s], given by its elements. *)
Definition set_mem (x : pyval) (s : list pyval) : bool :=
  existsb (key_eq x) s.

End Num.

(** ** skills/continuous-learning-v2/scripts/instinct-cli.py *)

Module InstinctCli.
Import Py Source Num.

(** The file [instincts.json] of [INSTINCTS_DIR]: absent, or holding the JSON
    array it parses to. *)
Definition store_file : Type := option (list pyval).

Definition load_instincts (fs : store_file) : list pyval :=
  match fs with
  | Some instincts => instincts
  | None => []
  end.

Definition save_instincts (instincts : list pyval) : store_file :=
  Some instincts.

(** What one call of [print] writes; each constructor is one of the format
    strings of the script, with the values that fill it. *)
Inductive line : Type :=
| NoInstinctsLine
    (* 'No instincts captured yet. Use sessions to build patterns.' *)
| TotalLine (n : nat)
    (* f'Total instincts: {n}' *)
| StatusLine (conf : num) (bar : string) (pattern : pyval)
    (* f'  [{conf:.1f}] {bar} {pattern}', [bar] already laid out by [10s] *)
| ImportedLine (added : nat)
    (* f'Imported {added} new instincts (discounted confidence by 0.1)' *)
| MemberLine (conf : num) (pattern : pyval)
    (* f'  [{conf:.1f}] {pattern}' *)
| RecommendLine (cat : pyval).
    (* f'  -> Recommend creating skill: {cat}-patterns.md' *)

(** *** status *)

(** [x.get('confidence', 0)], as the number it has to be: in [status] it is
    the sort key and then the operand of [conf * 10] and of [.1f]; in [evolve]
    it is compared with [0.7]. *)
Definition confidence_key (x : pyval) : result num :=
  c <- py_get x "confidence" (PInt 0) ;;
  to_num c.

(** [sorted(l, key=..., reverse=...)] on the list of the elements with their
    keys.  [sorted] is stable; with [reverse] it sorts the reversed list and
    reverses the result, so that equal keys keep their order there too.  On
    keys that [<] orders (no NaN) every stable sort returns this list. *)
Fixpoint insert_by {A : Type} (lt : A -> A -> bool) (x : A) (l : list A) : list A :=
  match l with
  | [] => [x]
  | y :: l' => if lt y x then y :: insert_by lt x l' else x :: y :: l'
  end.

Fixpoint stable_sort {A : Type} (lt : A -> A -> bool) (l : list A) : list A :=
  match l with
  | [] => []
  | x :: l' => insert_by lt x (stable_sort lt l')
  end.

Definition sorted {A : Type} (lt : A -> A -> bool) (reverse : bool) (l : list A)
  : list A :=
  if reverse then rev (stable_sort lt (rev l)) else stable_sort lt l.

Definition key_lt (a b : num * pyval) : bool := py_lt (fst a) (fst b).

Section Machine.

Variable memory : Z.

(** The body of the loop of [status] for the record [i]. *)
Definition status_line (i : pyval) : result line :=
  conf <- confidence_key i ;;
  n <- py_int (times10 conf) ;;
  bar <- str_times memory "#"%char n ;;
  _ <- py_float conf ;;
  pattern <- py_getitem i "pattern" ;;
  shown <- py_slice_to 60 pattern ;;
  Ok (StatusLine conf (ljust10 bar) shown).

Definition status (fs : store_file) : result (store_file * list line) :=
  let instincts := load_instincts fs in
  match instincts with
  | [] => Ok (fs, [NoInstinctsLine])
  | _ :: _ =>
      keyed <- mapM (fun x => k <- confidence_key x ;; Ok (k, x)) instincts ;;
      rows <- mapM status_line (map snd (sorted key_lt true keyed)) ;;
      Ok (fs, TotalLine (List.length instincts) :: rows)
  end.

End Machine.

(** *** import *)

(** [i['id']], as an element of a set. *)
Definition record_id (i : pyval) : result pyval :=
  v <- py_getitem i "id" ;;
  hash_key v.

(** [inst['confidence'] = max(0.3, inst.get('confidence', 0.5) - 0.1)] *)
Definition discounted (c : float) : float := py_max 0.3 (c - 0.1).

Definition discount (inst : pyval) : result pyval :=
  c <- py_get inst "confidence" (PFloat 0.5) ;;
  n <- to_num c ;;
  f <- py_float n ;;
  py_setitem inst "confidence" (PFloat (discounted f)).

(** The loop over [new_instincts], with the variables [existing] and [added]
    it updates; [existing_ids] is not assigned in the loop. *)
Fixpoint import_loop (existing_ids new_instincts existing : list pyval) (added : nat)
  : result (list pyval * nat) :=
  match new_instincts with
  | [] => Ok (existing, added)
  | inst :: rest =>
      id <- record_id inst ;;
      if negb (set_mem id existing_ids) then
        inst' <- discount inst ;;
        import_loop existing_ids rest (existing ++ [inst']) (S added)
      else
        import_loop existing_ids rest existing added
  end.

(** [import_instincts(input_path)], for a file at [input_path] that holds the
    JSON array [new_instincts]. *)
Definition import_instincts (new_instincts : list pyval) (fs : store_file)
  : result (store_file * list line) :=
  let existing := load_instincts fs in
  existing_ids <- mapM record_id existing ;;
  r <- import_loop existing_ids new_instincts existing 0 ;;
  Ok (save_instincts (fst r), [ImportedLine (snd r)]).

(** *** evolve *)

(** [[i for i in instincts if i.get('confidence', 0) >= 0.7]] *)
Fixpoint strong_of (instincts : list pyval) : result (list pyval) :=
  match instincts with
  | [] => Ok []
  | i :: rest =>
      k <- confidence_key i ;;
      strong <- strong_of rest ;;
      Ok (if py_ge k (NFloat 0.7) then i :: strong else strong)
  end.

(** [i.get('category', 'general')], as a key of the dictionary [categories]. *)
Definition category_of (i : pyval) : result pyval :=
  c <- py_get i "category" (PStr "general") ;;
  hash_key c.

(** [categories.setdefault(cat, []).append(i)]: a dictionary keeps its keys in
    the order of their first insertion, and keeps the key first inserted. *)
Fixpoint setdefault_append (cat i : pyval) (categories : list (pyval * list pyval))
  : list (pyval * list pyval) :=
  match categories with
  | [] => [(cat, [i])]
  | (c, items) :: rest =>
      if key_eq cat c then (c, items ++ [i]) :: rest
      else (c, items) :: setdefault_append cat i rest
  end.

Fixpoint group_loop (strong : list pyval) (categories : list (pyval * list pyval))
  : result (list (pyval * list pyval)) :=
  match strong with
  | [] => Ok categories
  | i :: rest =>
      cat <- category_of i ;;
      group_loop rest (setdefault_append cat i categories)
  end.

(** The function, line by line; its first line is line 51 of the script. *)
Definition evolve_source : list string :=
  ["def evolve():";
   "    instincts = load_instincts()";
   "    strong = [i for i in instincts if i.get('confidence', 0) >= 0.7]";
   "    categories = {}";
   "    for i in strong:";
   "        cat = i.get('category', 'general')";
   "        categories.setdefault(cat, []).append(i)";
   "    ";
   "    for cat, items in categories.items():";
   "        if len(items) >= 3:";
   "            print(f'";
   "Cluster ready for evolution: {cat} ({len(items)} instincts)')";
   "            for item in items:";
   ("                print(f'  [{item[" ++ dq ++ "confidence" ++ dq ++ "]:.1f}] {item["
      ++ dq ++ "pattern" ++ dq ++ "][:50]}')")%string;
   "            print(f'  -> Recommend creating skill: {cat}-patterns.md')"].

(** The [print] of line 63, for a member [item] of a group. *)
Definition member_line (item : pyval) : result line :=
  c <- py_getitem item "confidence" ;;
  conf <- to_num c ;;
  _ <- py_float conf ;;
  pattern <- py_getitem item "pattern" ;;
  shown <- py_slice_to 50 pattern ;;
  Ok (MemberLine conf shown).

Section Line61.

(** Lines 61 and 62 are to print the header of a group.  As they stand in
    [evolve_source] they are not a statement of Python: the literal opened on
    line 61 is cut by the end of the line.  What they would print, were they
    repaired, is not in the source: it is a parameter here, and no property
    of [evolve] depends on it. *)
Variable line_61 : pyval -> nat -> result (list line).

(** The body of the loop over [categories.items()]. *)
Definition cluster_lines (entry : pyval * list pyval) : result (list line) :=
  let (cat, items) := entry in
  if (3 <=? List.length items)%nat then
    header <- line_61 cat (List.length items) ;;
    rows <- mapM member_line items ;;
    Ok (header ++ rows ++ [RecommendLine cat])
  else Ok [].

(** Lines 52 to 64. *)
Definition evolve_statements (fs : store_file) : result (store_file * list line) :=
  let instincts := load_instincts fs in
  strong <- strong_of instincts ;;
  categories <- group_loop strong [] ;;
  blocks <- mapM cluster_lines categories ;;
  Ok (fs, List.concat blocks).

(** A call of [evolve]. *)
Definition evolve (fs : store_file) : result (store_file * list line) :=
  run_script evolve_source (evolve_statements fs).

End Line61.

End InstinctCli.

(** ** instinct-cli.py: export, and import from a file *)

Module Program.
Import Py Num InstinctCli.

(** What [export] and [import] print: the line of [import], and the line of
    [export]. *)
Inductive printed : Type :=
| Printed (l : line)
| ExportedLine (n : nat) (output_path : string).
    (* f'Exported {n} instincts to {output_path}' *)

(** The files the two functions can touch: the store, and the other JSON
    files, each given by the value it parses to. *)
Record world : Type := { store : store_file; files : string -> option pyval }.

(** [for inst in v]: a [list] yields its elements, a [dict] its keys, a [str]
    its characters; the other values are not iterable ([TypeError]). *)
Definition py_iter (v : pyval) : result (list pyval) :=
  match v with
  | PList l => Ok l
  | PDict kvs => Ok (map (fun kv => PStr (fst kv)) kvs)
  | PStr s => Ok (map PStr (chars s))
  | _ => Raised
  end.

Section Paths.

(** What the operating system decides: the file that a path names (two
    spellings of a path can name one file), the path that
    [INSTINCTS_DIR / name] is printed as, and whether a file can be written
    at a path (its directory is there, it is no directory itself, the
    process has the right to).  The files of a [world] are looked up by
    [file_of]. *)
Variable file_of : string -> string.
Variable in_instincts_dir : string -> string.
Variable writable : string -> bool.

(** The path names the file [INSTINCTS_DIR / 'instincts.json']. *)
Definition is_store (path : string) : bool :=
  String.eqb (file_of path) (file_of (in_instincts_dir "instincts.json")).

(** [json.loads(Path(path).read_text(encoding='utf-8'))]: a file that is not
    there raises [FileNotFoundError]. *)
Definition read_json (path : string) (w : world) : result pyval :=
  if is_store path then
    match store w with
    | Some instincts => Ok (PList instincts)
    | None => Raised
    end
  else
    match files w (file_of path) with
    | Some v => Ok v
    | None => Raised
    end.

(** [Path(path).write_text(json.dumps(instincts, ...), encoding='utf-8')]:
    [OSError] when no file can be written at [path]. *)
Definition write_json (path : string) (instincts : list pyval) (w : world)
  : result world :=
  if negb (writable path) then Raised
  else if is_store path then Ok {| store := Some instincts; files := files w |}
  else Ok {| store := store w;
             files := fun f => if String.eqb f (file_of path) then Some (PList instincts)
                               else files w f |}.

(** A function that works on the store alone. *)
Definition on_store (command : store_file -> result (store_file * list line))
  (w : world) : result (world * list printed) :=
  r <- command (store w) ;;
  Ok ({| store := fst r; files := files w |}, map Printed (snd r)).

(** [export_instincts(output_path)], run on the day that [strftime("%Y%m%d")]
    prints as [today]. *)
Definition export_instincts (output_path : option string) (today : string) (w : world)
  : result (world * list printed) :=
  let instincts := load_instincts (store w) in
  let output_path :=
    match output_path with
    | None => in_instincts_dir ("export-" ++ today ++ ".json")%string
    | Some path => path
    end in
  w' <- write_json output_path instincts w ;;
  Ok (w', [ExportedLine (List.length instincts) output_path]).

(** [import_instincts(input_path)], from the reading of the file on. *)
Definition import_from (input_path : string) (w : world) : result (world * list printed) :=
  v <- read_json input_path w ;;
  new_instincts <- py_iter v ;;
  on_store (import_instincts new_instincts) w.

End Paths.

End Program.

(** ** Vocabulary of the properties *)

Module GateSpec.
Import Py DocBlocker.

(** [p] ends in [suffix]. *)
Definition ends_with (p suffix : string) : Prop :=
  exists pre, p = (pre ++ suffix)%string.

(** [a] occurs somewhere in [p]. *)
Definition occurs_in (a p : string) : Prop :=
  exists pre post, p = (pre ++ a ++ post)%string.

(** The input of the gate for a write to [file_path]. *)
Definition request (file_path : string) : pyval :=
  PDict [("tool_input", PDict [("file_path", PStr file_path)])].

(** The member named [k] of a JSON value: only an object has members. *)
Definition member (k : string) (v : pyval) : option pyval :=
  match v with
  | PDict kvs => dict_lookup k kvs
  | _ => None
  end.

(** The input has no [tool_input] object, or its [tool_input] has no
    [file_path]. *)
Definition path_absent (d : pyval) : Prop :=
  match member "tool_input" d with
  | Some (PDict kvs) => dict_lookup "file_path" kvs = None
  | _ => True
  end.

End GateSpec.

Module NumSpec.
Import Py Num.

(** [a <= b] on the values of two numbers, neither of them a NaN. *)
Definition xle (a b : xval) : Prop :=
  match a, b with
  | XNaN, _ | _, XNaN => False
  | XNegInf, _ => True
  | _, XPosInf => True
  | XFin p, XFin q => (p <= q)%Q
  | _, _ => False
  end.

Definition not_nan (n : num) : Prop := value n <> XNaN.

(** [a < b] on the values of two numbers. *)
Definition xlt (a b : xval) : Prop := xle a b /\ ~ xle b a.

(** The value of [n * 10] as Python computes it: exactly on an [int], by the
    multiplication of the machine on a [float]. *)
Definition tenfold (n : num) : xval :=
  match n with
  | NInt z => XFin (z * 10 # 1)
  | NFloat f => float_value (f * 10)%float
  end.

(** [m] is the larger of 0.3 and [x], and 0.3 when [x] is not above it (as it
    is not when [x] is a NaN). *)
Definition floor_or (x m : float) : Prop :=
  (xlt (float_value 0.3) (float_value x) /\ m = x) \/
  (~ xlt (float_value 0.3) (float_value x) /\ m = 0.3%float).

(** After [k] shifts of the mantissa [M]: the quotient by [2 ^ k], and no
    round or sticky bit when the division is exact. *)
Definition shifted (M k : Z) (R : shr_record) : Prop :=
  shr_m R = M / 2 ^ k /\
  (M mod 2 ^ k = 0 -> shr_r R = false /\ shr_s R = false).

End NumSpec.

Module CliSpec.
Import Py Num NumSpec InstinctCli.

(** The value of a computation that does not raise. *)
Definition get_ok {A : Type} (dflt : A) (r : result A) : A :=
  match r with
  | Ok a => a
  | Raised => dflt
  end.

(** [inst] is a record whose [id] is the hashable value [id]. *)
Definition has_id (inst id : pyval) : Prop :=
  exists kvs,
    inst = PDict kvs /\ dict_lookup "id" kvs = Some id /\ hashable id = true.

(** The [id] of a record, and the ids of a store. *)
Definition id_of (inst : pyval) : pyval := get_ok PNone (record_id inst).

Definition ids_of (store : list pyval) : list pyval := map id_of store.

(** The [id] of [inst] is not among the ids of [store]. *)
Definition is_new (store : list pyval) (inst : pyval) : bool :=
  negb (set_mem (id_of inst) (ids_of store)).

(** No two records of the store have the same [id]. *)
Definition unique_ids (store : list pyval) : Prop :=
  ForallOrdPairs (fun r s => key_eq (id_of r) (id_of s) = false) store.

(** [c] is the confidence the record [inst] states, as a [float]; 0.5 when it
    has no [confidence] field. *)
Definition stated_confidence (inst : pyval) (c : float) : Prop :=
  exists kvs,
    inst = PDict kvs /\
    match dict_lookup "confidence" kvs with
    | None => c = 0.5%float
    | Some v => exists n, as_num v = Some n /\ py_float n = Ok c
    end.

(** [inst'] is [inst] with its [confidence] field set to
    [max(0.3, c - 0.1)], where [c] is the confidence [inst] states; the other
    fields are those of [inst]. *)
Definition discounted_copy (inst inst' : pyval) : Prop :=
  exists kvs kvs' c,
    inst = PDict kvs /\ inst' = PDict kvs' /\
    stated_confidence inst c /\
    dict_lookup "confidence" kvs' = Some (PFloat (py_max 0.3 (c - 0.1))) /\
    forall k, k <> "confidence" -> dict_lookup k kvs' = dict_lookup k kvs.

(** The number of filled segments of a bar: its '#' characters. *)
Definition hashes (bar : string) : nat :=
  count_occ ascii_dec (list_ascii_of_string bar) "#"%char.

(** The field [k] of a record: what an object binds [k] to. *)
Definition field (k : string) (r : pyval) : option pyval :=
  match r with
  | PDict kvs => dict_lookup k kvs
  | _ => None
  end.

(** The confidence of a record, as a number: what its field [confidence]
    holds, and 0 when it has no such field. *)
Definition stated_or_zero (r : pyval) : num :=
  match field "confidence" r with
  | Some (PInt z) => NInt z
  | Some (PFloat f) => NFloat f
  | Some (PBool true) => NInt 1
  | _ => NInt 0
  end.

(** The category of a record: what its field [category] holds, and
    "general" when it has no such field. *)
Definition stated_category (r : pyval) : pyval :=
  match field "category" r with
  | Some c => c
  | None => PStr "general"
  end.

(** [inst'] has a confidence that is the larger of 0.3 and [c - 0.1], for the
    confidence [c] that [inst] states. *)
Definition discounted_to (inst inst' : pyval) : Prop :=
  forall c, stated_confidence inst c ->
  exists c', field "confidence" inst' = Some (PFloat c') /\
             floor_or (c - 0.1)%float c'.

(** A record has the confidence that the number [c] has. *)
Definition same_confidence (c : num) (r : pyval) : bool :=
  match xcompare (value (stated_or_zero r)) (value c) with
  | Some Eq => true
  | _ => false
  end.

(** [shown] is [x] cut down to its first [n] items at most: the first [n]
    characters of a [str], cut between two characters, or the first [n]
    items of a [list]. *)
Definition truncated_to (n : nat) (x shown : pyval) : Prop :=
  match x, shown with
  | PStr s, PStr s' =>
      exists rest,
        s = (s' ++ rest)%string /\
        py_len s' = Nat.min n (py_len s) /\
        match rest with
        | EmptyString => True
        | String c _ => continues c = false
        end
  | PList l, PList l' => l' = firstn n l
  | _, _ => False
  end.

(** The confidence of a record as [status] reads it. *)
Definition confidence_of (i : pyval) : num := get_ok (NInt 0) (confidence_key i).

(** The records of a store, each with its sort key. *)
Definition keyed_of (store : list pyval) : list (num * pyval) :=
  map (fun x => (confidence_of x, x)) store.

End CliSpec.

Module ExtraSpec.
Import Py Num InstinctCli Program DocBlocker CliSpec.

(** The confidence field of a record is a float that is at least 0.3. *)
Definition confidence_at_least_floor (r : pyval) : Prop :=
  exists kvs c,
    r = PDict kvs /\ dict_lookup "confidence" kvs = Some (PFloat c) /\
    (0.3 <=? c)%float = true.

(** The keys of the groups are pairwise different keys. *)
Definition distinct_groups (categories : list (pyval * list pyval)) : Prop :=
  ForallOrdPairs (fun e1 e2 => key_eq (fst e1) (fst e2) = false) categories.

(** The records of a group are there, and are of the category of the group. *)
Definition same_category_group (entry : pyval * list pyval) : Prop :=
  snd entry <> [] /\
  Forall (fun i => key_eq (stated_category i) (fst entry) = true) (snd entry).

(** The paths of a machine on which every file is named by its full path
    only, and [INSTINCTS_DIR] is the directory of the script. *)
Definition full_path (path : string) : string := path.

Definition windows_dir (name : string) : string :=
  ("C:\.claude\skills\continuous-learning-v2\instincts\" ++ name)%string.

(** A record with an id, a pattern and a confidence; a machine with a store
    and one other file. *)
Definition record (id : string) (c : float) : pyval :=
  PDict [("id", PStr id); ("pattern", PStr "p"); ("confidence", PFloat c)].

Definition machine (fs : store_file) (path : string) (v : pyval) : world :=
  {| store := fs; files := fun f => if String.eqb f path then Some v else None |}.

End ExtraSpec.

(** * Properties of the Path Gate *)

Section StringFacts.
Import Py.

Lemma prefix_iff (a s : string) :
  prefix a s = true <-> exists post, s = (a ++ post)%string.
Proof.
  revert s; induction a as [|c a IH]; intros s; simpl.
  - split; [intros _; now exists s | intros _; now destruct s].
  - destruct s as [|c' s]; simpl.
    + split; [discriminate | intros [post H]; discriminate].
    + destruct (ascii_dec c c') as [->|Hne].
      * rewrite IH. split; intros [post H]; exists post; congruence.
      * split; [discriminate | intros [post H]; congruence].
Qed.

Lemma str_in_iff (a s : string) :
  str_in a s = true <-> GateSpec.occurs_in a s.
Proof.
  unfold GateSpec.occurs_in.
  assert (Hunf : forall s, str_in a s =
    prefix a s || match s with EmptyString => false | String _ s' => str_in a s' end)
    by (intros []; reflexivity).
  induction s as [|c s IH]; rewrite Hunf, orb_true_iff, prefix_iff.
  - split.
    + intros [[post H]|H]; [|discriminate]. now exists EmptyString, post.
    + intros [pre [post H]]. left. destruct pre; simpl in H; [now exists post | discriminate].
  - rewrite IH. split.
    + intros [[post H]|[pre [post H]]].
      * now exists EmptyString, post.
      * exists (String c pre), post. simpl. now rewrite H.
    + intros [pre [post H]]. destruct pre as [|c' pre]; simpl in H.
      * left. now exists post.
      * right. exists pre, post. congruence.
Qed.

Lemma endswith_iff (s suffix : string) :
  endswith s suffix = true <-> GateSpec.ends_with s suffix.
Proof.
  unfold GateSpec.ends_with.
  assert (Hunf : forall s, endswith s suffix =
    String.eqb s suffix ||
    match s with EmptyString => false | String _ s' => endswith s' suffix end)
    by (intros []; reflexivity).
  induction s as [|c s IH]; rewrite Hunf, orb_true_iff, String.eqb_eq.
  - split.
    + intros [H|H]; [|discriminate]. now exists EmptyString.
    + intros [pre H]. left. destruct pre; simpl in H; [assumption | discriminate].
  - rewrite IH. split.
    + intros [H|[pre H]].
      * now exists EmptyString.
      * exists (String c pre). simpl. now rewrite H.
    + intros [pre H]. destruct pre as [|c' pre]; simpl in H.
      * now left.
      * right. exists pre. congruence.
Qed.

Lemma existsb_str_in_iff (l : list string) (p : string) :
  existsb (fun a => str_in a p) l = true <->
  exists a, In a l /\ GateSpec.occurs_in a p.
Proof.
  rewrite existsb_exists. split; intros [a [Ha H]]; exists a; split; auto;
    now apply str_in_iff.
Qed.

End StringFacts.

Module GateProps.
Import Py Source DocBlocker GateSpec.

(** The literal left open is on line 4. *)
Lemma source_open_literal : first_unterminated Code 1 source = Some 4%nat.
Proof. reflexivity. Qed.

(** The script does not compile, so that no input reaches its statements. *)
Lemma doc_blocker_raises (line_4 : pyval -> result string) (d : pyval) :
  doc_blocker line_4 d = Raised.
Proof. reflexivity. Qed.

Lemma off_allow_list (p : string) :
  existsb (fun a => str_in a p) allowed = false ->
  forall a, In a allowed -> ~ occurs_in a p.
Proof.
  intros Hno a Ha Hocc.
  assert (Hex : existsb (fun a => str_in a p) allowed = true)
    by (apply existsb_str_in_iff; now exists a).
  rewrite Hex in Hno. discriminate Hno.
Qed.

(** C1. The script does not reach its allow-list.  A request for a Markdown
    file that holds none of the allow-list strings, for which exit status 2 is
    claimed, and a request for one under a docs directory, for which 0 is
    claimed, both end in the [SyntaxError] of line 4: the exit status is 1. *)
Theorem gate_fails_on_markdown_paths (line_4 : pyval -> result string) :
  first_unterminated Code 1 source = Some 4%nat /\
  (ends_with "proj/notes.md" ".md" /\
   (forall a, In a allowed -> ~ occurs_in a "proj/notes.md") /\
   doc_blocker line_4 (request "proj/notes.md") = Raised) /\
  (ends_with "proj/docs/notes.md" ".md" /\
   (exists a, In a allowed /\ occurs_in a "proj/docs/notes.md") /\
   doc_blocker line_4 (request "proj/docs/notes.md") = Raised).
Proof.
  split; [reflexivity|]. split; repeat split.
  - now exists "proj/notes".
  - now apply off_allow_list.
  - now exists "proj/docs/notes".
  - exists "/docs/". split; [now left | now exists "proj", "notes.md"].
Qed.

(** C2. A request for a file that is no Markdown file, for which exit status
    0 is claimed, ends in the [SyntaxError] of line 4 like every other. *)
Theorem gate_fails_on_other_extensions (line_4 : pyval -> result string) :
  ~ ends_with "proj/docs/main.py" ".md" /\
  doc_blocker line_4 (request "proj/docs/main.py") = Raised.
Proof.
  split; [|reflexivity].
  intros H. apply endswith_iff in H. discriminate H.
Qed.

(** C9. An input without [tool_input], and one whose [tool_input] has no
    [file_path], for which exit status 0 is claimed, end in the [SyntaxError]
    of line 4. *)
Theorem gate_fails_without_a_path (line_4 : pyval -> result string) :
  (path_absent (PDict [("session_id", PStr "s1")]) /\
   doc_blocker line_4 (PDict [("session_id", PStr "s1")]) = Raised) /\
  (path_absent (PDict [("tool_input", PDict [("command", PStr "ls")])]) /\
   doc_blocker line_4 (PDict [("tool_input", PDict [("command", PStr "ls")])]) = Raised).
Proof.
  repeat split.
Qed.

End GateProps.

(** * Properties of import *)

Module ImportProps.
Import Py Num InstinctCli CliSpec.

Lemma dict_lookup_set_same (k : string) (v : pyval) (kvs : list (string * pyval)) :
  dict_lookup k (dict_set k v kvs) = Some v.
Proof.
  induction kvs as [|[k' v'] kvs IH]; simpl.
  - now rewrite String.eqb_refl.
  - destruct (String.eqb k k') eqn:E; simpl; now rewrite E.
Qed.

Lemma dict_lookup_set_other (k k' : string) (v : pyval) (kvs : list (string * pyval)) :
  k' <> k -> dict_lookup k' (dict_set k v kvs) = dict_lookup k' kvs.
Proof.
  intros Hne. induction kvs as [|[k0 v0] kvs IH]; simpl.
  - apply String.eqb_neq in Hne. now rewrite Hne.
  - destruct (String.eqb_spec k k0) as [->|Hk]; simpl.
    + apply String.eqb_neq in Hne. now rewrite Hne.
    + now rewrite IH.
Qed.

Lemma record_id_iff (inst id : pyval) :
  record_id inst = Ok id <-> has_id inst id.
Proof.
  unfold record_id, has_id, py_getitem, hash_key. split.
  - destruct inst as [| | | | | |kvs]; try discriminate.
    destruct (dict_lookup "id" kvs) as [v|] eqn:E; try discriminate.
    cbn [bind]. destruct (hashable v) eqn:Hh; try discriminate.
    intros [= <-]. now exists kvs.
  - intros [kvs [-> [E Hh]]]. rewrite E. cbn [bind]. now rewrite Hh.
Qed.

Lemma has_id_id_of (inst id : pyval) : has_id inst id -> id_of inst = id.
Proof.
  intros H. apply record_id_iff in H. unfold id_of. now rewrite H.
Qed.

Lemma mapM_record_id (store : list pyval) :
  Forall (fun r => exists id, has_id r id) store ->
  mapM record_id store = Ok (ids_of store).
Proof.
  induction 1 as [|r store [id Hid] _ IH]; simpl.
  - reflexivity.
  - rewrite IH. rewrite (has_id_id_of _ _ Hid).
    apply record_id_iff in Hid. now rewrite Hid.
Qed.

Lemma discount_spec (inst : pyval) (c : float) :
  stated_confidence inst c ->
  exists inst', discount inst = Ok inst' /\ discounted_copy inst inst'.
Proof.
  intros Hc. pose proof Hc as [kvs [-> Hconf]].
  exists (PDict (dict_set "confidence" (PFloat (discounted c)) kvs)). split.
  - unfold discount, py_get.
    destruct (dict_lookup "confidence" kvs) as [v|].
    + destruct Hconf as [n [Hn Hf]]. cbn [bind]. unfold to_num. rewrite Hn.
      cbn [bind]. rewrite Hf. reflexivity.
    + subst c. reflexivity.
  - exists kvs, (dict_set "confidence" (PFloat (discounted c)) kvs), c.
    repeat split; auto.
    + apply dict_lookup_set_same.
    + intros k Hk. now apply dict_lookup_set_other.
Qed.

Lemma discounted_copy_id (inst inst' : pyval) :
  discounted_copy inst inst' -> id_of inst' = id_of inst.
Proof.
  intros [kvs [kvs' [c [-> [-> [_ [_ Hother]]]]]]].
  unfold id_of, record_id, py_getitem. rewrite Hother; [reflexivity | discriminate].
Qed.

(** The loop appends the discounted copy of every candidate whose [id] is not
    in [existing_ids], in the order of the file, and nothing else; what it has
    appended so far plays no part. *)
Lemma import_loop_spec (existing_ids : list pyval) (new_instincts : list pyval) :
  forall (existing : list pyval) (added : nat),
  Forall (fun inst => exists id, has_id inst id /\
            (set_mem id existing_ids = false -> exists c, stated_confidence inst c))
         new_instincts ->
  exists appended,
    import_loop existing_ids new_instincts existing added
      = Ok (existing ++ appended, (added + List.length appended)%nat) /\
    Forall2 discounted_copy
      (filter (fun inst => negb (set_mem (id_of inst) existing_ids)) new_instincts)
      appended.
Proof.
  induction new_instincts as [|inst rest IH]; intros existing added Hall.
  - exists []. simpl. rewrite app_nil_r, Nat.add_0_r. split; constructor.
  - inversion Hall as [|? ? [id [Hid Hnew]] Hrest]; subst.
    cbn [import_loop filter]. rewrite (has_id_id_of _ _ Hid).
    pose proof Hid as Hrid. apply record_id_iff in Hrid. rewrite Hrid. cbn [bind].
    destruct (set_mem id existing_ids) eqn:Hmem; cbn [negb].
    + destruct (IH existing added Hrest) as [appended [Hrun Hcopies]].
      exists appended. split; assumption.
    + destruct (Hnew eq_refl) as [c Hc].
      destruct (discount_spec _ _ Hc) as [inst' [Hd Hcopy]].
      rewrite Hd. cbn [bind].
      destruct (IH (existing ++ [inst']) (S added) Hrest) as [appended [Hrun Hcopies]].
      exists (inst' :: appended). split.
      * rewrite Hrun. rewrite <- app_assoc. simpl.
        now rewrite Nat.add_succ_r.
      * now constructor.
Qed.

(** Import appends a copy of every candidate whose [id] is not among the ids
    of the store as it was before the import, in the order of the file. *)
Lemma import_appends_copies (fs : store_file) (new_instincts : list pyval) :
  Forall (fun r => exists id, has_id r id) (load_instincts fs) ->
  Forall (fun inst => exists id, has_id inst id /\
            (is_new (load_instincts fs) inst = true ->
             exists c, stated_confidence inst c))
         new_instincts ->
  exists appended,
    import_instincts new_instincts fs
      = Ok (Some (load_instincts fs ++ appended),
            [ImportedLine (List.length appended)]) /\
    Forall2 discounted_copy
      (filter (is_new (load_instincts fs)) new_instincts) appended.
Proof.
  intros Hstore Hnew.
  unfold import_instincts. rewrite (mapM_record_id _ Hstore). cbn [bind].
  destruct (import_loop_spec (ids_of (load_instincts fs)) new_instincts
              (load_instincts fs) 0) as [appended [Hrun Hcopies]].
  - eapply Forall_impl; [|exact Hnew]. intros inst [id [Hid Hc]].
    exists id. split; [assumption|]. intros Hmem. apply Hc.
    unfold is_new. now rewrite (has_id_id_of _ _ Hid), Hmem.
  - exists appended. rewrite Hrun. cbn [bind fst snd save_instincts]. split.
    + reflexivity.
    + exact Hcopies.
Qed.

(** A run, computed: 0.9 becomes 0.8, a record that states
    no confidence gets 0.4, and 0.2 is raised to the floor 0.3. *)
Example import_run :
  let rec_ id c := PDict [("id", PStr id); ("pattern", PStr "p"); ("confidence", PFloat c)] in
  import_instincts
    [rec_ "a" 0.9%float; rec_ "z" 0.9%float; PDict [("id", PStr "y")]; rec_ "w" 0.2%float]
    (Some [rec_ "a" 0.5%float])
  = Ok (Some [rec_ "a" 0.5%float; rec_ "z" 0.8%float;
              PDict [("id", PStr "y"); ("confidence", PFloat 0.4)];
              rec_ "w" 0.3%float],
        [ImportedLine 3]).
Proof. vm_compute. reflexivity. Qed.

Lemma filter_none {A : Type} (f : A -> bool) (l : list A) :
  Forall (fun x => f x = false) l -> filter f l = [].
Proof.
  induction 1 as [|x l Hx _ IH]; simpl; [reflexivity | now rewrite Hx].
Qed.

(** C4. When every candidate of the file has an [id] that is already in the
    store, import appends nothing and reports zero additions, and the store it
    saves is the sequence of records it loaded, each with the fields it had:
    no record is updated from a skipped candidate. *)
Theorem import_of_known_ids_changes_nothing
  (fs : store_file) (new_instincts : list pyval) :
  Forall (fun r => exists id, has_id r id) (load_instincts fs) ->
  Forall (fun inst => (exists id, has_id inst id) /\
                      is_new (load_instincts fs) inst = false) new_instincts ->
  import_instincts new_instincts fs
    = Ok (save_instincts (load_instincts fs), [ImportedLine 0]) /\
  load_instincts (save_instincts (load_instincts fs)) = load_instincts fs.
Proof.
  intros Hstore Hknown. split; [|reflexivity].
  unfold import_instincts. rewrite (mapM_record_id _ Hstore). cbn [bind].
  destruct (import_loop_spec (ids_of (load_instincts fs)) new_instincts
              (load_instincts fs) 0) as [appended [Hrun Hcopies]].
  - eapply Forall_impl; [|exact Hknown]. intros inst [[id Hid] Hold].
    exists id. split; [assumption|]. intros Hmem.
    unfold is_new in Hold. rewrite (has_id_id_of _ _ Hid), Hmem in Hold.
    discriminate Hold.
  - rewrite filter_none in Hcopies.
    + inversion Hcopies; subst. rewrite Hrun. cbn [bind fst snd].
      now rewrite app_nil_r.
    + eapply Forall_impl; [|exact Hknown]. intros inst [_ Hold].
      unfold is_new in Hold. now rewrite Hold.
Qed.

Lemma import_of_known_ids_changes_nothing_witness :
  let rec_ id c := PDict [("id", PStr id); ("pattern", PStr "p"); ("confidence", PFloat c)] in
  let store := [rec_ "a" 0.5%float; rec_ "b" 0.75%float] in
  import_instincts [rec_ "b" 1%float; PDict [("id", PStr "a"); ("pattern", PStr "q")]]
                   (Some store)
    = Ok (Some store, [ImportedLine 0]) /\
  load_instincts (Some store) = store.
Proof.
  cbv zeta.
  apply (import_of_known_ids_changes_nothing
           (Some [PDict [("id", PStr "a"); ("pattern", PStr "p"); ("confidence", PFloat 0.5)];
                  PDict [("id", PStr "b"); ("pattern", PStr "p"); ("confidence", PFloat 0.75)]])).
  - repeat constructor; eexists; eexists; repeat split.
  - repeat constructor; eexists; eexists; repeat split.
Defined.

Lemma ordpairs_middle {A : Type} (R : A -> A -> Prop) (l1 l2 l3 : list A) (a b : A) :
  ForallOrdPairs R (l1 ++ a :: l2 ++ b :: l3) -> R a b.
Proof.
  induction l1 as [|x l1 IH]; simpl; intros H; inversion H as [|? ? Hall Hrest]; subst.
  - rewrite Forall_forall in Hall. apply Hall. apply in_or_app. right. now left.
  - now apply IH.
Qed.

(** C10. The ids that import consults are those of the store as loaded; the
    records appended during the run are not added to them.  So when two
    candidates of the file share an [id] that the store does not have, both
    are appended, and the saved store holds two records with one [id]. *)
Theorem import_appends_candidates_sharing_a_new_id
  (fs : store_file) (pre mid post : list pyval) (a b : pyval) :
  Forall (fun r => exists id, has_id r id) (load_instincts fs) ->
  Forall (fun inst => exists id, has_id inst id /\
            (is_new (load_instincts fs) inst = true ->
             exists c, stated_confidence inst c))
         (pre ++ a :: mid ++ b :: post) ->
  is_new (load_instincts fs) a = true ->
  is_new (load_instincts fs) b = true ->
  key_eq (id_of a) (id_of b) = true ->
  exists a' b' l1 l2 l3 n,
    import_instincts (pre ++ a :: mid ++ b :: post) fs
      = Ok (Some (load_instincts fs ++ l1 ++ a' :: l2 ++ b' :: l3), [ImportedLine n]) /\
    discounted_copy a a' /\ discounted_copy b b' /\
    id_of a' = id_of a /\ id_of b' = id_of b /\
    ~ unique_ids (load_instincts fs ++ l1 ++ a' :: l2 ++ b' :: l3).
Proof.
  intros Hstore Hnew Ha Hb Hsame.
  unfold import_instincts. rewrite (mapM_record_id _ Hstore). cbn [bind].
  destruct (import_loop_spec (ids_of (load_instincts fs)) (pre ++ a :: mid ++ b :: post)
              (load_instincts fs) 0) as [appended [Hrun Hcopies]].
  - eapply Forall_impl; [|exact Hnew]. intros inst [id [Hid Hc]].
    exists id. split; [assumption|]. intros Hmem. apply Hc.
    unfold is_new. now rewrite (has_id_id_of _ _ Hid), Hmem.
  - fold (is_new (load_instincts fs)) in Hcopies.
    rewrite filter_app in Hcopies. cbn [filter] in Hcopies. rewrite Ha in Hcopies.
    rewrite filter_app in Hcopies. cbn [filter] in Hcopies. rewrite Hb in Hcopies.
    apply Forall2_app_inv_l in Hcopies. destruct Hcopies as [l1 [r1 [_ [H1 ->]]]].
    inversion H1 as [|? a' ? r2 Haa H2]; subst.
    apply Forall2_app_inv_l in H2. destruct H2 as [l2 [r3 [_ [H3 ->]]]].
    inversion H3 as [|? b' ? l3 Hbb _]; subst.
    exists a', b', l1, l2, l3, (List.length (l1 ++ a' :: l2 ++ b' :: l3)).
    rewrite Hrun. cbn [bind fst snd save_instincts].
    pose proof (discounted_copy_id _ _ Haa) as Hida.
    pose proof (discounted_copy_id _ _ Hbb) as Hidb.
    repeat split; try assumption.
    intros Huniq. unfold unique_ids in Huniq. rewrite app_assoc in Huniq.
    apply ordpairs_middle in Huniq. rewrite Hida, Hidb in Huniq. congruence.
Qed.

(** C10, on a store with unique ids and a file that names the new id "z"
    twice. *)
Lemma import_appends_candidates_sharing_a_new_id_witness :
  let rec_ id c := PDict [("id", PStr id); ("pattern", PStr "p"); ("confidence", PFloat c)] in
  unique_ids [rec_ "a" 0.5%float] /\
  exists a' b' l1 l2 l3 n,
    import_instincts ([] ++ rec_ "z" 0.9%float :: [] ++ rec_ "z" 0.5%float :: [])
                     (Some [rec_ "a" 0.5%float])
      = Ok (Some ([rec_ "a" 0.5%float] ++ l1 ++ a' :: l2 ++ b' :: l3), [ImportedLine n]) /\
    discounted_copy (rec_ "z" 0.9%float) a' /\ discounted_copy (rec_ "z" 0.5%float) b' /\
    id_of a' = PStr "z" /\ id_of b' = PStr "z" /\
    ~ unique_ids ([rec_ "a" 0.5%float] ++ l1 ++ a' :: l2 ++ b' :: l3).
Proof.
  cbv zeta. split.
  - repeat constructor.
  - apply (import_appends_candidates_sharing_a_new_id
             (Some [PDict [("id", PStr "a"); ("pattern", PStr "p"); ("confidence", PFloat 0.5)]])
             [] [] []).
    + repeat constructor. eexists. eexists. repeat split.
    + repeat constructor; eexists; (split; [eexists; repeat split|]); intros _;
        eexists; eexists; (split; [reflexivity|]); cbn;
        eexists; split; reflexivity.
    + reflexivity.
    + reflexivity.
    + reflexivity.
Defined.

End ImportProps.

(** * The order of the numbers *)

Module NumFacts.
Import Py Num NumSpec.

Lemma xle_trans (a b c : xval) : xle a b -> xle b c -> xle a c.
Proof.
  destruct a, b, c; simpl; try tauto. apply Qle_trans.
Qed.

Lemma py_lt_false_iff (a b : num) :
  not_nan a -> not_nan b -> (py_lt a b = false <-> xle (value b) (value a)).
Proof.
  unfold not_nan, py_lt, compare.
  destruct (value a) as [| |p|], (value b) as [| |q|]; simpl; intros Ha Hb;
    try tauto; try (split; [intros _; exact I | reflexivity]);
    try (split; [discriminate | intros []]).
  rewrite Qle_alt, <- Qcompare_antisym.
  destruct (q ?= p)%Q; simpl; split; congruence.
Qed.

Lemma py_ge_iff (a b : num) : py_ge a b = true <-> xle (value b) (value a).
Proof.
  unfold py_ge, compare.
  destruct (value a) as [| |p|], (value b) as [| |q|]; simpl;
    try tauto; try (split; [intros _; exact I | reflexivity]);
    try (split; [discriminate | intros []]).
  rewrite Qle_alt, <- Qcompare_antisym.
  destruct (q ?= p)%Q; simpl; split; congruence.
Qed.

Lemma py_lt_asym (a b : num) : py_lt a b = true -> py_lt b a = false.
Proof.
  unfold py_lt, compare.
  destruct (value a) as [| |p|], (value b) as [| |q|]; simpl; try congruence.
  rewrite <- (Qcompare_antisym p q). destruct (p ?= q)%Q; simpl; congruence.
Qed.

Lemma py_eq_sym (a b : num) : py_eq a b = py_eq b a.
Proof.
  unfold py_eq, compare.
  destruct (value a) as [| |p|], (value b) as [| |q|]; simpl; try reflexivity.
  rewrite <- (Qcompare_antisym p q). now destruct (p ?= q)%Q.
Qed.

Lemma py_eq_trans (a b c : num) :
  py_eq a b = true -> py_eq b c = true -> py_eq a c = true.
Proof.
  unfold py_eq, compare.
  destruct (value a) as [| |p|], (value b) as [| |q|], (value c) as [| |r|];
    simpl; try congruence.
  destruct (p ?= q)%Q eqn:E1; try discriminate.
  destruct (q ?= r)%Q eqn:E2; try discriminate.
  intros _ _. apply Qeq_alt in E1, E2.
  assert (E3 : (p == r)%Q) by (now rewrite E1). apply Qeq_alt in E3. now rewrite E3.
Qed.

Lemma py_eq_not_lt (a b c : num) :
  py_eq a c = true -> py_eq b c = true -> py_lt a b = false.
Proof.
  intros Ha Hb. rewrite py_eq_sym in Hb.
  pose proof (py_eq_trans _ _ _ Ha Hb) as H. revert H.
  unfold py_eq, py_lt. now destruct (compare a b) as [[]|].
Qed.

(** A NaN is recognised by [is_nan]. *)
Lemma float_value_nan (f : float) : float_value f = XNaN -> Prim2SF f = S754_nan.
Proof.
  unfold float_value, sf_value. destruct (Prim2SF f) as [s|s| |s m e]; try reflexivity;
    try discriminate. now destruct s.
Qed.

(** [int(f * 10)] raises on a NaN. *)
Lemma py_int_times10_not_nan (n : num) (z : Z) :
  py_int (times10 n) = Ok z -> not_nan n.
Proof.
  destruct n as [k|f]; unfold not_nan; simpl; [discriminate|].
  intros H Hnan. apply float_value_nan in Hnan.
  rewrite mul_spec, Hnan in H. discriminate H.
Qed.

End NumFacts.

(** * Stable sorting *)

Section Sorting.
Import InstinctCli.

Context {A : Type} (lt : A -> A -> bool).

(** [x] is not above [y]: [y < x] does not hold. *)
Let le (x y : A) : Prop := lt y x = false.

Lemma insert_by_perm (x : A) (l : list A) : Permutation (insert_by lt x l) (x :: l).
Proof.
  induction l as [|y l IH]; simpl.
  - apply Permutation_refl.
  - destruct (lt y x).
    + apply Permutation_trans with (y :: x :: l).
      * now apply perm_skip.
      * apply perm_swap.
    + apply Permutation_refl.
Qed.

Lemma stable_sort_perm (l : list A) : Permutation (stable_sort lt l) l.
Proof.
  induction l as [|x l IH]; simpl.
  - apply perm_nil.
  - apply Permutation_trans with (x :: stable_sort lt l).
    + apply insert_by_perm.
    + now apply perm_skip.
Qed.

Lemma sorted_perm (reverse : bool) (l : list A) : Permutation (sorted lt reverse l) l.
Proof.
  unfold sorted. destruct reverse.
  - apply Permutation_trans with (stable_sort lt (rev l)).
    + apply Permutation_sym, Permutation_rev.
    + apply Permutation_trans with (rev l).
      * apply stable_sort_perm.
      * apply Permutation_sym, Permutation_rev.
  - apply stable_sort_perm.
Qed.

(** The elements that are sorted lie in a part [P] of [A] that [lt] orders. *)
Variable P : A -> Prop.
Hypothesis lt_asym : forall x y, P x -> P y -> lt x y = true -> lt y x = false.
Hypothesis le_trans : forall x y z, P x -> P y -> P z -> le x y -> le y z -> le x z.

Lemma insert_by_sorted (x : A) (l : list A) :
  P x -> Forall P l ->
  StronglySorted le l -> StronglySorted le (insert_by lt x l).
Proof.
  intros Px Pl Hs. induction Hs as [|y l Hs IH Hy]; simpl.
  - constructor; constructor.
  - inversion Pl as [|? ? Py Pl']; subst.
    destruct (lt y x) eqn:E.
    + constructor; [now apply IH|].
      apply (Permutation_Forall (Permutation_sym (insert_by_perm x l))).
      constructor; [|assumption]. unfold le. now apply lt_asym.
    + constructor; [now constructor|].
      constructor; [exact E|].
      rewrite Forall_forall in Hy, Pl' |- *. intros z Hz.
      apply (le_trans x y z); auto.
Qed.

Lemma stable_sort_sorted (l : list A) :
  Forall P l -> StronglySorted le (stable_sort lt l).
Proof.
  induction 1 as [|x l Px Pl IH]; simpl.
  - constructor.
  - apply insert_by_sorted; auto.
    apply (Permutation_Forall (Permutation_sym (stable_sort_perm l))). assumption.
Qed.

Lemma strongly_sorted_app (R : A -> A -> Prop) (l1 l2 : list A) :
  StronglySorted R l1 -> StronglySorted R l2 ->
  (forall x y, In x l1 -> In y l2 -> R x y) ->
  StronglySorted R (l1 ++ l2).
Proof.
  intros H1 H2 H12. induction H1 as [|x l1 H1 IH Hx]; simpl.
  - assumption.
  - constructor.
    + apply IH. intros a b Ha Hb. apply H12; [now right | assumption].
    + apply Forall_app. split; [assumption|].
      rewrite Forall_forall. intros y Hy. apply H12; [now left | assumption].
Qed.

Lemma strongly_sorted_rev (R : A -> A -> Prop) (l : list A) :
  StronglySorted R l -> StronglySorted (fun x y => R y x) (rev l).
Proof.
  induction 1 as [|x l Hs IH Hx]; simpl.
  - constructor.
  - apply strongly_sorted_app.
    + assumption.
    + constructor; constructor.
    + intros a b Ha [<-|[]]. rewrite Forall_forall in Hx. apply Hx.
      now apply in_rev.
Qed.

(** With [reverse], no element is below one that comes after it. *)
Lemma sorted_reverse_descending (l : list A) :
  Forall P l ->
  StronglySorted (fun x y => lt x y = false) (sorted lt true l).
Proof.
  intros Pl. unfold sorted.
  apply (strongly_sorted_rev le). apply stable_sort_sorted.
  apply (Permutation_Forall (Permutation_rev l)). assumption.
Qed.

(** Stability: the elements of a class [Q] whose members [lt] does not
    separate come out in the order they went in. *)
Variable Q : A -> bool.
Hypothesis Q_unordered : forall x y, Q x = true -> Q y = true -> lt x y = false.

Lemma insert_by_filter (x : A) (l : list A) :
  filter Q (insert_by lt x l) = filter Q (x :: l).
Proof.
  induction l as [|y l IH]; simpl.
  - reflexivity.
  - destruct (lt y x) eqn:E; [|reflexivity].
    simpl. rewrite IH. simpl.
    destruct (Q x) eqn:Qx, (Q y) eqn:Qy; try reflexivity.
    rewrite (Q_unordered y x Qy Qx) in E. discriminate E.
Qed.

Lemma stable_sort_filter (l : list A) : filter Q (stable_sort lt l) = filter Q l.
Proof.
  induction l as [|x l IH]; simpl.
  - reflexivity.
  - rewrite insert_by_filter. simpl. now rewrite IH.
Qed.

Lemma filter_rev (l : list A) : filter Q (rev l) = rev (filter Q l).
Proof.
  induction l as [|x l IH]; simpl.
  - reflexivity.
  - rewrite filter_app, IH. simpl. destruct (Q x); simpl.
    + reflexivity.
    + now rewrite app_nil_r.
Qed.

Lemma sorted_filter (reverse : bool) (l : list A) :
  filter Q (sorted lt reverse l) = filter Q l.
Proof.
  unfold sorted. destruct reverse.
  - now rewrite filter_rev, stable_sort_filter, filter_rev, rev_involutive.
  - apply stable_sort_filter.
Qed.

End Sorting.

(** * Properties of status *)

Module StatusProps.
Import Py Num NumSpec InstinctCli CliSpec NumFacts.

Lemma mapM_ok {A B : Type} (f : A -> result B) (l : list A) :
  Forall (fun x => exists y, f x = Ok y) l ->
  exists ys, mapM f l = Ok ys /\ Forall2 (fun x y => f x = Ok y) l ys.
Proof.
  induction 1 as [|x l [y Hy] _ [ys [IH1 IH2]]]; simpl.
  - exists []. split; constructor.
  - exists (y :: ys). rewrite Hy, IH1. split; [reflexivity | now constructor].
Qed.

Lemma strongly_sorted_map_in {A B : Type} (f : A -> B)
  (R : A -> A -> Prop) (R' : B -> B -> Prop) (l : list A) :
  (forall x y, In x l -> In y l -> R x y -> R' (f x) (f y)) ->
  StronglySorted R l -> StronglySorted R' (map f l).
Proof.
  intros HR Hs. induction Hs as [|x l Hs IH Hx]; simpl.
  - constructor.
  - constructor.
    + apply IH. intros a b Ha Hb. apply HR; now right.
    + rewrite Forall_forall in Hx |- *. intros b Hb.
      apply in_map_iff in Hb. destruct Hb as [y [<- Hy]].
      apply HR; [now left | now right | now apply Hx].
Qed.

Lemma filter_map_swap {A B : Type} (f : A -> B) (g : B -> bool) (l : list A) :
  filter g (map f l) = map f (filter (fun x => g (f x)) l).
Proof.
  induction l as [|x l IH]; simpl.
  - reflexivity.
  - destruct (g (f x)); simpl; now rewrite IH.
Qed.

Lemma strongly_sorted_in {A : Type} (R R' : A -> A -> Prop) (l : list A) :
  (forall x y, In x l -> In y l -> R x y -> R' x y) ->
  StronglySorted R l -> StronglySorted R' l.
Proof.
  intros HR Hs. rewrite <- (map_id l).
  now apply strongly_sorted_map_in with (R := R).
Qed.

(** The key that [status] sorts a record by is the number in its field
    [confidence], and 0 when it has no such field. *)
Lemma confidence_key_stated (i : pyval) (n : num) :
  confidence_key i = Ok n -> n = stated_or_zero i.
Proof.
  unfold confidence_key, py_get, stated_or_zero, field.
  destruct i as [| | | | | |kvs]; try discriminate.
  destruct (dict_lookup "confidence" kvs) as [v|]; cbn [bind].
  - unfold to_num. destruct v as [|[|]| | | | |]; simpl; try discriminate;
      now intros [= <-].
  - now intros [= <-].
Qed.

Section Machine.

Variable memory : Z.

Abbreviation status_line := (status_line memory).
Abbreviation status := (status memory).

(** A record that [status] can print has a confidence that is a number and
    not a NaN. *)
Lemma status_line_key (i : pyval) (row : line) :
  status_line i = Ok row ->
  confidence_key i = Ok (confidence_of i) /\ not_nan (confidence_of i).
Proof.
  unfold InstinctCli.status_line, confidence_of.
  destruct (confidence_key i) as [conf|]; cbn [bind get_ok]; [|discriminate].
  destruct (py_int (times10 conf)) as [z|] eqn:E; cbn [bind]; [|discriminate].
  intros _. split; [reflexivity|]. exact (py_int_times10_not_nan _ _ E).
Qed.

Lemma status_line_stated (i : pyval) (row : line) :
  status_line i = Ok row -> confidence_of i = stated_or_zero i.
Proof.
  intros H. destruct (status_line_key _ _ H) as [Hk _].
  exact (confidence_key_stated _ _ Hk).
Qed.

Lemma keyed_ok (store : list pyval) :
  Forall (fun i => exists row, status_line i = Ok row) store ->
  mapM (fun x => k <- confidence_key x ;; Ok (k, x)) store = Ok (keyed_of store).
Proof.
  induction 1 as [|i store [row Hrow] _ IH]; simpl.
  - reflexivity.
  - destruct (status_line_key _ _ Hrow) as [Hk _]. now rewrite Hk, IH.
Qed.

Lemma keyed_of_snd (store : list pyval) : map snd (keyed_of store) = store.
Proof.
  unfold keyed_of. rewrite map_map. simpl. apply map_id.
Qed.

Lemma keyed_of_in (store : list pyval) (kx : num * pyval) :
  In kx (keyed_of store) -> fst kx = confidence_of (snd kx) /\ In (snd kx) store.
Proof.
  unfold keyed_of. intros H. apply in_map_iff in H. destruct H as [x [<- Hx]].
  now split.
Qed.

Lemma status_nonempty (fs : store_file) :
  load_instincts fs <> [] ->
  status fs =
    (keyed <- mapM (fun x => k <- confidence_key x ;; Ok (k, x)) (load_instincts fs) ;;
     rows <- mapM status_line (map snd (sorted key_lt true keyed)) ;;
     Ok (fs, TotalLine (List.length (load_instincts fs)) :: rows)).
Proof.
  intros Hne. unfold InstinctCli.status.
  destruct (load_instincts fs); [now elim Hne | reflexivity].
Qed.

(** The listing, in the terms of the sort: the records are printed in the
    order that the stable sort on their keys gives. *)
Lemma status_sorts_by_key (fs : store_file) :
  load_instincts fs <> [] ->
  Forall (fun i => exists row, status_line i = Ok row) (load_instincts fs) ->
  exists ordered rows,
    status fs = Ok (fs, TotalLine (List.length (load_instincts fs)) :: rows) /\
    Forall2 (fun i row => status_line i = Ok row) ordered rows /\
    Permutation ordered (load_instincts fs) /\
    StronglySorted
      (fun i j => py_ge (confidence_of i) (confidence_of j) = true) ordered /\
    (forall c : num,
       filter (fun i => py_eq (confidence_of i) c) ordered =
       filter (fun i => py_eq (confidence_of i) c) (load_instincts fs)).
Proof.
  intros Hne Hall.
  pose (store := load_instincts fs).
  pose (L := sorted key_lt true (keyed_of store)).
  assert (HL : Permutation L (keyed_of store)) by apply sorted_perm.
  assert (Hin : forall kx, In kx L ->
            fst kx = confidence_of (snd kx) /\ In (snd kx) store).
  { intros kx Hkx. apply keyed_of_in. now apply (Permutation_in _ HL). }
  assert (Hnan : Forall (fun kx => not_nan (fst kx)) (keyed_of store)).
  { rewrite Forall_forall. intros kx Hkx.
    destruct (keyed_of_in _ _ Hkx) as [-> Hs].
    rewrite Forall_forall in Hall. destruct (Hall _ Hs) as [row Hrow].
    now destruct (status_line_key _ _ Hrow). }
  assert (Hperm : Permutation (map snd L) store).
  { apply Permutation_trans with (map snd (keyed_of store)).
    - now apply Permutation_map.
    - rewrite keyed_of_snd. apply Permutation_refl. }
  destruct (mapM_ok status_line (map snd L)) as [rows [Hrows Hrel]].
  { exact (Permutation_Forall (Permutation_sym Hperm) Hall). }
  exists (map snd L), rows. repeat split.
  + rewrite (status_nonempty fs Hne), (keyed_ok _ Hall). cbn [bind].
    fold store. fold L. now rewrite Hrows.
  + exact Hrel.
  + exact Hperm.
  + apply strongly_sorted_map_in with (R := fun x y => key_lt x y = false).
    * intros x y Hx Hy Hxy. destruct (Hin x Hx) as [<- _], (Hin y Hy) as [<- _].
      apply py_ge_iff. apply py_lt_false_iff; [| |exact Hxy].
      -- apply (Permutation_in _ HL) in Hx. rewrite Forall_forall in Hnan. now apply Hnan.
      -- apply (Permutation_in _ HL) in Hy. rewrite Forall_forall in Hnan. now apply Hnan.
    * apply (sorted_reverse_descending key_lt (fun kx => not_nan (fst kx))).
      -- intros x y _ _. apply py_lt_asym.
      -- intros x y z Px Py Pz Hxy Hyz. unfold key_lt in *.
         apply py_lt_false_iff in Hxy, Hyz; auto.
         apply py_lt_false_iff; auto. exact (xle_trans _ _ _ Hxy Hyz).
      -- exact Hnan.
  + intros c. rewrite filter_map_swap.
    rewrite (filter_ext_in (fun x => py_eq (confidence_of (snd x)) c)
                           (fun kx => py_eq (fst kx) c)).
    * unfold L. rewrite sorted_filter.
      -- transitivity (filter (fun i => py_eq (confidence_of i) c)
                                 (map snd (keyed_of store)));
           [|now rewrite keyed_of_snd].
         rewrite filter_map_swap.
         f_equal. apply filter_ext_in. intros kx Hkx.
         now destruct (keyed_of_in _ _ Hkx) as [-> _].
      -- intros x y Hx Hy. unfold key_lt. exact (py_eq_not_lt _ _ _ Hx Hy).
    * intros kx Hkx. now destruct (Hin kx Hkx) as [-> _].
Qed.


End Machine.


End StatusProps.

(** * Rounding of a product *)

Module RoundFacts.
Import Py Num NumSpec.

Lemma shr_1_m (R : shr_record) :
  0 <= shr_m R ->
  shr_m (shr_1 R) = shr_m R / 2 /\
  shr_r (shr_1 R) = Z.odd (shr_m R) /\
  shr_s (shr_1 R) = shr_r R || shr_s R.
Proof.
  destruct R as [m r s]. simpl. intros Hm.
  rewrite <- Z.div2_div.
  destruct m as [|[p|p|]|]; simpl; try lia; repeat split.
Qed.

Lemma shifted_step (M k : Z) (R : shr_record) :
  0 <= M -> 0 <= k -> shifted M k R -> shifted M (k + 1) (shr_1 R).
Proof.
  intros HM Hk [Hm Hex].
  assert (Hpos : 0 < 2 ^ k) by (apply Z.pow_pos_nonneg; lia).
  assert (Hm0 : 0 <= shr_m R) by (rewrite Hm; apply Z.div_pos; lia).
  destruct (shr_1_m R Hm0) as [H1 [H2 H3]].
  assert (Hpow : 2 ^ (k + 1) = 2 ^ k * 2) by (rewrite Z.pow_add_r; lia).
  split.
  - rewrite H1, Hm, Hpow. rewrite Z.div_div; lia.
  - intros Hmod. rewrite Hpow in Hmod.
    apply Z.mod_divide in Hmod; [|lia]. destruct Hmod as [c Hc].
    assert (Hk0 : M mod 2 ^ k = 0).
    { apply Z.mod_divide; [lia|]. exists (c * 2). lia. }
    destruct (Hex Hk0) as [Hr Hs]. rewrite H2, H3, Hr, Hs. split; [|reflexivity].
    rewrite Hm. replace M with ((c * 2) * 2 ^ k) by lia.
    rewrite Z.div_mul by lia. rewrite Z.odd_mul. apply andb_false_r.
Qed.

Lemma shifted_iter (M : Z) (p : positive) :
  0 <= M ->
  forall (k : Z) (R : shr_record),
  0 <= k -> shifted M k R -> shifted M (k + Zpos p) (iter_pos shr_1 p R).
Proof.
  intros HM. induction p as [p IH|p IH|]; intros k R Hk HR; simpl.
  - replace (k + Zpos p~1) with (((k + 1) + Zpos p) + Zpos p) by lia.
    apply IH; [lia|]. apply IH; [lia|]. now apply shifted_step.
  - replace (k + Zpos p~0) with ((k + Zpos p) + Zpos p) by lia.
    apply IH; [lia|]. now apply IH.
  - now apply shifted_step.
Qed.

Lemma digits2_bounds (p : positive) :
  2 ^ (Zpos (digits2_pos p) - 1) <= Zpos p < 2 ^ Zpos (digits2_pos p).
Proof.
  induction p as [p IH|p IH|]; simpl digits2_pos.
  - rewrite Pos2Z.inj_succ.
    replace (Z.succ (Zpos (digits2_pos p)) - 1) with ((Zpos (digits2_pos p) - 1) + 1) by lia.
    rewrite Z.pow_succ_r by lia. rewrite Z.pow_add_r by lia. lia.
  - rewrite Pos2Z.inj_succ.
    replace (Z.succ (Zpos (digits2_pos p)) - 1) with ((Zpos (digits2_pos p) - 1) + 1) by lia.
    rewrite Z.pow_succ_r by lia. rewrite Z.pow_add_r by lia. lia.
  - simpl. lia.
Qed.

Lemma shr_fexp_exact (M E : Z) :
  0 <= M ->
  exists n,
    0 <= n /\
    snd (shr_fexp prec emax M E loc_Exact) = E + n /\
    shifted M n (fst (shr_fexp prec emax M E loc_Exact)) /\
    (n = 0 \/ E + n = fexp prec emax (Zdigits2 M + E)).
Proof.
  intros HM. unfold shr_fexp, shr. simpl shr_record_of_loc.
  assert (H0 : shifted M 0 {| shr_m := M; shr_r := false; shr_s := false |}).
  { split; simpl; [now rewrite Z.div_1_r | auto]. }
  destruct (fexp prec emax (Zdigits2 M + E) - E) as [|p|p] eqn:En; simpl fst; simpl snd.
  - exists 0. repeat split; try lia; apply H0.
  - exists (Zpos p).
    pose proof (shifted_iter M p HM 0 _ (Z.le_refl 0) H0) as Hs.
    rewrite Z.add_0_l in Hs.
    split; [lia|]. split; [reflexivity|]. split; [exact Hs | lia].
  - exists 0. repeat split; try lia; apply H0.
Qed.

Lemma round_nearest_even_bounds (q : Z) (l : location) :
  q <= round_nearest_even q l <= q + 1 /\ round_nearest_even q loc_Exact = q.
Proof.
  split; [|reflexivity].
  destruct l as [|[]]; simpl; try lia. destruct (Z.even q); lia.
Qed.

Lemma fexp_le_0 (d E : Z) : d + E <= 53 -> fexp prec emax (d + E) <= 0.
Proof.
  unfold fexp, emin, prec, emax. lia.
Qed.

Lemma pow2_split (a b : Z) : 0 <= a -> 0 <= b -> 2 ^ (a + b) = 2 ^ a * 2 ^ b.
Proof. intros. now apply Z.pow_add_r. Qed.

Lemma digits_le (b M e : Z) :
  0 < b < 2 ^ 53 -> e <= 0 -> 0 <= M <= b * 2 ^ (- e) -> Zdigits2 M + e <= 53.
Proof.
  intros Hb He HM. destruct M as [|p|p]; cbn [Zdigits2]; try lia.
  pose proof (digits2_bounds p) as [Hlo _].
  assert (Hlt : 2 ^ (Zpos (digits2_pos p) - 1) < 2 ^ (53 - e)).
  { apply Z.le_lt_trans with (Zpos p); [assumption|].
    apply Z.le_lt_trans with (b * 2 ^ (- e)); [lia|].
    replace (53 - e) with (53 + - e) by lia. rewrite pow2_split by lia.
    apply Z.mul_lt_mono_pos_r; [apply Z.pow_pos_nonneg; lia | apply Hb]. }
  apply Z.pow_lt_mono_r_iff in Hlt; lia.
Qed.

(** Rounding to nearest does not go past a bound that is itself a multiple of
    the unit in the last place: the product of a mantissa that is at most
    [b * 2 ^ (- E)] rounds to zero or to a number that is at most [b]. *)
Lemma binary_round_aux_le (b : Z) (M : positive) (E : Z) :
  0 < b < 2 ^ 53 -> E <= 0 -> Zpos M <= b * 2 ^ (- E) ->
  binary_round_aux prec emax false (Zpos M) E loc_Exact = S754_zero false \/
  exists m e,
    binary_round_aux prec emax false (Zpos M) E loc_Exact = S754_finite false m e /\
    e <= 0 /\ Zpos m <= b * 2 ^ (- e).
Proof.
  intros Hb HE HM. unfold binary_round_aux.
  destruct (shr_fexp_exact (Zpos M) E (Pos2Z.is_nonneg M))
    as [n [Hn [He' [[Hq Hex] Hfexp]]]].
  destruct (shr_fexp prec emax (Zpos M) E loc_Exact) as [mrs' e'].
  simpl fst in *. simpl snd in *.
  assert (He'0 : e' <= 0).
  { destruct Hfexp as [->|Hf]; [lia|]. rewrite He', Hf.
    apply fexp_le_0. apply (digits_le b); auto. lia. }
  assert (Hpn : 0 < 2 ^ n) by (apply Z.pow_pos_nonneg; lia).
  assert (HK : b * 2 ^ (- E) = b * 2 ^ (- e') * 2 ^ n).
  { replace (- E) with (- e' + n) by lia. rewrite pow2_split by lia. ring. }
  set (mr := round_nearest_even (shr_m mrs') (loc_of_shr_record mrs')).
  assert (Hmr : 0 <= mr <= b * 2 ^ (- e')).
  { destruct (round_nearest_even_bounds (shr_m mrs') (loc_of_shr_record mrs'))
      as [[Hlo Hhi] _]. fold mr in Hlo, Hhi.
    assert (Hq0 : 0 <= shr_m mrs') by (rewrite Hq; apply Z.div_pos; lia).
    split; [lia|].
    assert (Hle : shr_m mrs' <= b * 2 ^ (- e')).
    { rewrite Hq. apply Z.div_le_upper_bound; [assumption|]. lia. }
    destruct (Z.eq_dec (shr_m mrs') (b * 2 ^ (- e'))) as [Heq|Hne]; [|lia].
    assert (HMeq : Zpos M = b * 2 ^ (- e') * 2 ^ n).
    { pose proof (Z.mul_div_le (Zpos M) (2 ^ n) Hpn). rewrite <- Hq, Heq in H. lia. }
    assert (Hmod : Zpos M mod 2 ^ n = 0). { rewrite HMeq. apply Z.mod_mul. lia. }
    destruct (Hex Hmod) as [Hr Hs]. unfold mr.
    destruct mrs' as [m0 r0 s0]. simpl in Hr, Hs. subst r0 s0. simpl. simpl in Heq. lia. }
  destruct (shr_fexp_exact mr e' (proj1 Hmr)) as [n2 [Hn2 [He'' [[Hq2 _] Hfexp2]]]].
  destruct (shr_fexp prec emax mr e' loc_Exact) as [mrs'' e''].
  simpl fst in *. simpl snd in *.
  assert (He''0 : e'' <= 0).
  { destruct Hfexp2 as [->|Hf]; [lia|]. rewrite He'', Hf.
    apply fexp_le_0. now apply (digits_le b). }
  assert (Hpn2 : 0 < 2 ^ n2) by (apply Z.pow_pos_nonneg; lia).
  assert (HK2 : b * 2 ^ (- e') = b * 2 ^ (- e'') * 2 ^ n2).
  { replace (- e') with (- e'' + n2) by lia. rewrite pow2_split by lia. ring. }
  assert (Hm2 : 0 <= shr_m mrs'' <= b * 2 ^ (- e'')).
  { rewrite Hq2. split; [apply Z.div_pos; lia|].
    apply Z.div_le_upper_bound; [assumption|]. lia. }
  destruct (shr_m mrs'') as [|m|m]; [now left | | lia].
  right. exists m, e''. split; [|split; [assumption | lia]].
  assert (Hle : (e'' <=? emax - prec)%Z = true) by (apply Z.leb_le; unfold emax, prec; lia).
  now rewrite Hle.
Qed.

Lemma dyadic_le_1 (m : positive) (e : Z) :
  (dyadic (Zpos m) e <= 1)%Q -> e <= 0 /\ Zpos m <= 2 ^ (- e).
Proof.
  destruct e as [|p|p]; unfold dyadic, Qle; cbn [Qnum Qden].
  - intros H. change (2 ^ (- 0)) with 1. lia.
  - intros H. exfalso.
    assert (H2 : 2 ^ 1 <= 2 ^ Zpos p) by (apply Z.pow_le_mono_r; lia).
    change (2 ^ 1) with 2 in H2. nia.
  - intros H. split; [lia|]. rewrite Pos2Z.inj_pow in H.
    change (- Zneg p) with (Zpos p). lia.
Qed.

Lemma dyadic_nonneg_sign (s : bool) (m : positive) (e : Z) :
  (0 <= dyadic (if s then Zneg m else Zpos m) e)%Q -> s = false.
Proof.
  destruct s; [|reflexivity]. intros H. exfalso.
  assert (Hp : forall p, 0 < 2 ^ Zpos p) by (intros p; apply Z.pow_pos_nonneg; lia).
  destruct e as [|p|p]; unfold dyadic, Qle in H; cbn [Qnum Qden] in H;
    try specialize (Hp p); nia.
Qed.

(** A confidence between 0 and 1, times 10, is between 0 and 10. *)
Lemma times10_unit_interval (f : float) (v : Q) :
  float_value f = XFin v -> (0 <= v <= 1)%Q ->
  exists q, float_value (f * 10)%float = XFin q /\ 0 <= Qfloor q <= 10.
Proof.
  unfold float_value, sf_value. rewrite mul_spec.
  change (Prim2SF 10) with (S754_finite false 5629499534213120 (-49)).
  destruct (Prim2SF f) as [s|s| |s m e]; try discriminate.
  - intros _ _. exists 0%Q. split; [reflexivity|]. change (Qfloor 0) with 0. lia.
  - destruct s; discriminate.
  - intros [= <-] [H0 H1].
    apply dyadic_nonneg_sign in H0. subst s.
    apply dyadic_le_1 in H1. destruct H1 as [He Hm].
    unfold SF64mul, SFmul. simpl xorb.
    destruct (binary_round_aux_le 10 (m * 5629499534213120) (e + -49))
      as [Hz|[m' [e' [Hf [He' Hm']]]]].
    + lia.
    + lia.
    + rewrite Pos2Z.inj_mul.
      replace (- (e + -49)) with (- e + 49) by lia. rewrite pow2_split by lia.
      change (2 ^ 49) with 562949953421312.
      assert (0 < 2 ^ (- e)) by (apply Z.pow_pos_nonneg; lia). nia.
    + rewrite Hz. exists 0%Q. split; [reflexivity|]. change (Qfloor 0) with 0. lia.
    + rewrite Hf. eexists. split; [reflexivity|].
      destruct e' as [|p|p]; try lia; unfold dyadic, Qfloor.
      * rewrite Z.div_1_r. simpl in Hm'. lia.
      * rewrite Pos2Z.inj_pow. simpl Z.opp in Hm'. split.
        -- apply Z.div_pos; [lia|]. apply Z.pow_pos_nonneg; lia.
        -- apply Z.div_le_upper_bound; [apply Z.pow_pos_nonneg; lia | lia].
Qed.

Lemma times10_range (n : num) (v : Q) :
  value n = XFin v -> (0 <= v <= 1)%Q ->
  exists q, value (times10 n) = XFin q /\ 0 <= Qfloor q <= 10.
Proof.
  destruct n as [z|f]; [|apply times10_unit_interval].
  simpl. intros [= <-] [H0 H1]. exists (z * 10 # 1). split; [reflexivity|].
  unfold Qle in H0, H1. cbn [Qnum Qden] in H0, H1.
  unfold Qfloor. rewrite Z.div_1_r. lia.
Qed.

(** Rounding keeps the sign. *)
Lemma binary_round_aux_sign (s : bool) (M E : Z) (l : location) :
  match binary_round_aux prec emax s M E l with
  | S754_zero s' | S754_infinity s' | S754_finite s' _ _ => s' = s
  | S754_nan => True
  end.
Proof.
  unfold binary_round_aux.
  destruct (shr_fexp prec emax M E l) as [mrs' e'].
  destruct (shr_fexp prec emax _ e' loc_Exact) as [mrs'' e''].
  destruct (shr_m mrs''); [reflexivity| |exact I].
  now destruct (e'' <=? emax - prec)%Z.
Qed.

Lemma dyadic_neg_sign (s : bool) (m : positive) (e : Z) :
  (dyadic (if s then Zneg m else Zpos m) e < 0)%Q -> s = true.
Proof.
  destruct s; [reflexivity|]. intros H. exfalso.
  assert (Hp : forall p, 0 < 2 ^ Zpos p) by (intros p; apply Z.pow_pos_nonneg; lia).
  destruct e as [|p|p]; unfold dyadic, Qlt in H; cbn [Qnum Qden] in H;
    try specialize (Hp p); nia.
Qed.

Lemma dyadic_neg_le (m : positive) (e : Z) : (dyadic (Zneg m) e <= 0)%Q.
Proof.
  assert (Hp : forall p, 0 < 2 ^ Zpos p) by (intros p; apply Z.pow_pos_nonneg; lia).
  destruct e as [|p|p]; unfold dyadic, Qle; cbn [Qnum Qden];
    try specialize (Hp p); nia.
Qed.

(** A confidence below 0, times 10, is not above 0. *)
Lemma tenfold_negative (n : num) (v q : Q) :
  value n = XFin v -> (v < 0)%Q -> tenfold n = XFin q -> (q <= 0)%Q.
Proof.
  destruct n as [z|f]; simpl.
  - intros [= <-] Hv [= <-]. unfold Qlt in Hv. unfold Qle. cbn [Qnum Qden] in *. lia.
  - unfold float_value, sf_value. rewrite mul_spec.
    change (Prim2SF 10) with (S754_finite false 5629499534213120 (-49)).
    destruct (Prim2SF f) as [s|s| |s m e]; try discriminate.
    + intros [= <-] Hv. now apply Qlt_irrefl in Hv.
    + destruct s; discriminate.
    + intros [= <-] Hv. apply dyadic_neg_sign in Hv. subst s.
      unfold SF64mul, SFmul. simpl xorb.
      pose proof (binary_round_aux_sign true (Zpos (m * 5629499534213120)) (e + -49)
                    loc_Exact) as Hs.
      destruct (binary_round_aux prec emax true (Zpos (m * 5629499534213120)) (e + -49)
                  loc_Exact) as [s'|s'| |s' m' e']; try discriminate.
      * intros [= <-]. apply Qle_refl.
      * destruct s'; discriminate.
      * subst s'. intros [= <-]. apply dyadic_neg_le.
Qed.

End RoundFacts.

(** * The comparisons of the embedding and those of the machine *)

Module FloatOrder.
Import Py Num NumSpec RoundFacts.

Lemma dyadic_num_den (m e : Z) :
  Qnum (dyadic m e) = m * 2 ^ Z.max e 0 /\
  Zpos (Qden (dyadic m e)) = 2 ^ Z.max (- e) 0.
Proof.
  destruct e as [|p|p]; unfold dyadic; cbn [Qnum Qden].
  - change (Z.max 0 0) with 0. change (Z.max (- 0) 0) with 0.
    change (2 ^ 0) with 1. lia.
  - rewrite Z.max_l by lia. replace (Z.max (- Zpos p) 0) with 0 by lia.
    split; reflexivity.
  - replace (Z.max (Zneg p) 0) with 0 by lia.
    change (- Zneg p) with (Zpos p). rewrite Z.max_l by lia.
    rewrite Pos2Z.inj_pow. change (2 ^ 0) with 1. lia.
Qed.

(** Two dyadic numbers compare as their mantissas brought to a common
    exponent. *)
Lemma dyadic_compare (a b e1 e2 : Z) :
  (dyadic a e1 ?= dyadic b e2)%Q =
  (a * 2 ^ (Z.max e1 0 + Z.max (- e2) 0) ?= b * 2 ^ (Z.max e2 0 + Z.max (- e1) 0))%Z.
Proof.
  unfold Qcompare.
  destruct (dyadic_num_den a e1) as [-> ->], (dyadic_num_den b e2) as [-> ->].
  rewrite !Z.pow_add_r by lia. now rewrite !Z.mul_assoc.
Qed.

Lemma canonical_bounds (m : positive) (e : Z) :
  canonical_mantissa prec emax m e = true ->
  Zpos m < 2 ^ 53 /\ -1074 <= e /\ (-1074 < e -> 2 ^ 52 <= Zpos m).
Proof.
  unfold canonical_mantissa, fexp, emin, prec, emax. intros H.
  apply Z.eqb_eq in H. destruct (digits2_bounds m) as [Hlo Hhi].
  assert (Hd : Zpos (digits2_pos m) <= 53) by lia.
  split; [|split; [lia|]].
  - apply Z.lt_le_trans with (2 ^ Zpos (digits2_pos m)); [assumption|].
    apply Z.pow_le_mono_r; lia.
  - intros He. assert (Hd53 : Zpos (digits2_pos m) = 53) by lia.
    rewrite Hd53 in Hlo. exact Hlo.
Qed.

Lemma compare_scaled (m1 m2 : positive) (a b : Z) :
  0 <= a -> 0 <= b ->
  Zpos m1 < 2 ^ 53 -> 2 ^ 52 <= Zpos m2 -> a < b ->
  (Zpos m1 * 2 ^ a ?= Zpos m2 * 2 ^ b)%Z = Lt.
Proof.
  intros Ha Hb H1 H2 Hab. apply Z.compare_lt_iff.
  replace b with ((b - a - 1) + 1 + a) by lia.
  rewrite !Z.pow_add_r by lia. change (2 ^ 1) with 2.
  assert (0 < 2 ^ a) by (apply Z.pow_pos_nonneg; lia).
  assert (0 < 2 ^ (b - a - 1)) by (apply Z.pow_pos_nonneg; lia).
  change (2 ^ 53) with (2 ^ 52 * 2) in H1.
  assert (Zpos m1 < Zpos m2 * (2 ^ (b - a - 1) * 2)) by nia.
  nia.
Qed.

(** On mantissas in canonical form, the order of the numbers is the order of
    the pairs of exponent and mantissa. *)
Lemma dyadic_compare_canonical (m1 m2 : positive) (e1 e2 : Z) :
  canonical_mantissa prec emax m1 e1 = true ->
  canonical_mantissa prec emax m2 e2 = true ->
  (dyadic (Zpos m1) e1 ?= dyadic (Zpos m2) e2)%Q =
  match (e1 ?= e2)%Z with
  | Eq => Pos.compare_cont Eq m1 m2
  | Lt => Lt
  | Gt => Gt
  end.
Proof.
  intros H1 H2. rewrite dyadic_compare.
  destruct (canonical_bounds _ _ H1) as [Hm1 [He1 Hn1]].
  destruct (canonical_bounds _ _ H2) as [Hm2 [He2 Hn2]].
  destruct (Z.compare_spec e1 e2) as [->|Hlt|Hgt].
  - rewrite <- Zmult_compare_compat_r by (apply Z.lt_gt, Z.pow_pos_nonneg; lia).
    reflexivity.
  - apply compare_scaled; lia.
  - rewrite Z.compare_antisym. apply (f_equal CompOpp (y := Lt)).
    apply compare_scaled; lia.
Qed.

Lemma dyadic_compare_neg (m1 m2 : positive) (e1 e2 : Z) :
  (dyadic (Zneg m1) e1 ?= dyadic (Zneg m2) e2)%Q =
  CompOpp (dyadic (Zpos m1) e1 ?= dyadic (Zpos m2) e2)%Q.
Proof.
  rewrite !dyadic_compare. rewrite <- !Pos2Z.opp_pos, !Z.mul_opp_l.
  rewrite Z.compare_opp. apply Z.compare_antisym.
Qed.

Lemma dyadic_sign (m : positive) (e : Z) :
  (0 ?= dyadic (Zpos m) e)%Q = Lt /\ (0 ?= dyadic (Zneg m) e)%Q = Gt /\
  (dyadic (Zpos m) e ?= 0)%Q = Gt /\ (dyadic (Zneg m) e ?= 0)%Q = Lt.
Proof.
  assert (Hp : 0 < 2 ^ Z.max e 0) by (apply Z.pow_pos_nonneg; lia).
  unfold Qcompare. cbn [Qnum Qden].
  destruct (dyadic_num_den (Zpos m) e) as [-> _].
  destruct (dyadic_num_den (Zneg m) e) as [-> _].
  rewrite !Z.mul_1_r. rewrite !Z.mul_0_l.
  repeat split.
  - apply Z.compare_lt_iff. lia.
  - apply Z.compare_gt_iff. nia.
  - apply Z.compare_gt_iff. lia.
  - apply Z.compare_lt_iff. nia.
Qed.

Lemma dyadic_neg_pos (m1 m2 : positive) (e1 e2 : Z) :
  (dyadic (Zneg m1) e1 ?= dyadic (Zpos m2) e2)%Q = Lt /\
  (dyadic (Zpos m1) e1 ?= dyadic (Zneg m2) e2)%Q = Gt.
Proof.
  rewrite !dyadic_compare.
  assert (Hp : forall k, 0 <= k -> 0 < 2 ^ k) by (intros; apply Z.pow_pos_nonneg; lia).
  pose proof (Hp (Z.max e1 0 + Z.max (- e2) 0)).
  pose proof (Hp (Z.max e2 0 + Z.max (- e1) 0)).
  split; [apply Z.compare_lt_iff | apply Z.compare_gt_iff]; nia.
Qed.

(** The comparison of IEEE 754 is the comparison of the values. *)
Lemma SFcompare_value (x y : spec_float) :
  valid_binary x = true -> valid_binary y = true ->
  SFcompare x y = xcompare (sf_value x) (sf_value y).
Proof.
  destruct x as [s1|s1| |s1 m1 e1], y as [s2|s2| |s2 m2 e2]; simpl;
    intros Hx Hy; try reflexivity;
    try (destruct s1; reflexivity); try (destruct s2; reflexivity);
    try (destruct s1, s2; reflexivity).
  - destruct (dyadic_sign m2 e2) as [H1 [H2 _]]. destruct s2; now rewrite ?H1, ?H2.
  - destruct (dyadic_sign m1 e1) as [_ [_ [H1 H2]]]. destruct s1; now rewrite ?H1, ?H2.
  - unfold bounded in Hx, Hy. apply andb_true_iff in Hx, Hy.
    destruct Hx as [Hx _], Hy as [Hy _].
    destruct s1, s2.
    + rewrite dyadic_compare_neg, (dyadic_compare_canonical _ _ _ _ Hx Hy).
      now destruct (e1 ?= e2)%Z.
    + now destruct (dyadic_neg_pos m1 m2 e1 e2) as [-> _].
    + now destruct (dyadic_neg_pos m1 m2 e1 e2) as [_ ->].
    + now rewrite (dyadic_compare_canonical _ _ _ _ Hx Hy).
Qed.

(** On two floats, the comparisons of the embedding are those of the
    machine. *)
Lemma compare_floats (f g : float) :
  compare (NFloat f) (NFloat g) = SFcompare (Prim2SF f) (Prim2SF g).
Proof.
  unfold compare, value, float_value. symmetry.
  apply SFcompare_value; apply Prim2SF_valid.
Qed.

Lemma py_lt_floats (f g : float) : py_lt (NFloat f) (NFloat g) = (f <? g)%float.
Proof.
  unfold py_lt. now rewrite compare_floats, ltb_spec.
Qed.

Lemma py_eq_floats (f g : float) : py_eq (NFloat f) (NFloat g) = (f =? g)%float.
Proof.
  unfold py_eq. now rewrite compare_floats, eqb_spec.
Qed.

Lemma py_ge_floats (f g : float) : py_ge (NFloat f) (NFloat g) = (g <=? f)%float.
Proof.
  unfold py_ge. rewrite leb_spec. unfold SFleb.
  rewrite <- !compare_floats. unfold compare.
  destruct (value (NFloat f)) as [| |p|], (value (NFloat g)) as [| |q|];
    simpl; try reflexivity.
  rewrite <- (Qcompare_antisym p q). now destruct (p ?= q)%Q.
Qed.

End FloatOrder.

(** * The bar and the pattern of a status line *)

Module BarProps.
Import Py Num NumSpec InstinctCli CliSpec NumFacts.

Lemma Qfloor_dyadic_pos (m : positive) (e : Z) :
  Qfloor (dyadic (Zpos m) e) = Z.shiftl (Zpos m) e.
Proof.
  destruct e as [|p|p]; unfold dyadic, Qfloor.
  - now rewrite Z.div_1_r.
  - rewrite Z.div_1_r. rewrite Z.shiftl_mul_pow2; [reflexivity | apply Pos2Z.is_nonneg].
  - change (Z.shiftl (Zpos m) (Zneg p)) with (Z.shiftr (Zpos m) (Zpos p)).
    rewrite Z.shiftr_div_pow2; [|apply Pos2Z.is_nonneg].
    now rewrite Pos2Z.inj_pow.
Qed.

Lemma Qfloor_dyadic_neg (m : positive) (e : Z) :
  (Qfloor (dyadic (Zneg m) e) < 0)%Z.
Proof.
  assert (Hdiv : forall a (d : positive), (a < 0)%Z -> (a / Zpos d < 0)%Z).
  { intros a d Ha. apply Z.div_lt_upper_bound; [reflexivity | lia]. }
  destruct e as [|p|p]; unfold dyadic, Qfloor; apply Hdiv.
  - reflexivity.
  - apply Z.mul_neg_pos; [reflexivity|].
    apply Z.pow_pos_nonneg; [reflexivity | apply Pos2Z.is_nonneg].
  - reflexivity.
Qed.

(** [int] of a number: defined on the finite ones, and then, up to what is
    below zero, the floor of its value. *)
Lemma py_int_floor (n : num) (z : Z) :
  py_int n = Ok z ->
  exists q, value n = XFin q /\ Z.max 0 z = Z.max 0 (Qfloor q).
Proof.
  destruct n as [k|f]; simpl.
  - intros [= <-]. exists (k # 1). split; [reflexivity|].
    unfold Qfloor. now rewrite Z.div_1_r.
  - unfold float_value, sf_value. destruct (Prim2SF f) as [s|s| |s m e]; try discriminate.
    + intros [= <-]. exists 0%Q. split; reflexivity.
    + intros [= <-]. exists (dyadic (if s then Zneg m else Zpos m) e).
      split; [reflexivity|]. destruct s.
      * pose proof (Qfloor_dyadic_neg m e) as Hneg.
        assert (0 <= Z.shiftl (Zpos m) e)%Z
          by (apply Z.shiftl_nonneg; apply Pos2Z.is_nonneg).
        lia.
      * now rewrite Qfloor_dyadic_pos.
Qed.

Lemma list_of_string_app (s1 s2 : string) :
  list_ascii_of_string (s1 ++ s2) =
  list_ascii_of_string s1 ++ list_ascii_of_string s2.
Proof.
  induction s1 as [|c s1 IH]; simpl; [reflexivity | now rewrite IH].
Qed.

Lemma string_of_list_app (l1 l2 : list ascii) :
  string_of_list_ascii (l1 ++ l2) =
  (string_of_list_ascii l1 ++ string_of_list_ascii l2)%string.
Proof.
  induction l1 as [|c l1 IH]; simpl; [reflexivity | now rewrite IH].
Qed.

Lemma py_len_app (s1 s2 : string) : py_len (s1 ++ s2) = (py_len s1 + py_len s2)%nat.
Proof.
  induction s1 as [|c s1 IH]; simpl; [reflexivity|].
  destruct (continues c); now rewrite IH.
Qed.

Lemma py_len_repeat (c : ascii) (k : nat) :
  continues c = false -> py_len (string_of_list_ascii (repeat c k)) = k.
Proof.
  intros Hc. induction k as [|k IH]; simpl; [reflexivity | now rewrite Hc, IH].
Qed.

Lemma count_occ_repeat_same (c : ascii) (k : nat) :
  count_occ ascii_dec (repeat c k) c = k.
Proof.
  induction k as [|k IH]; simpl; [reflexivity|].
  destruct (ascii_dec c c); [now rewrite IH | contradiction].
Qed.

Lemma count_occ_repeat_other (c d : ascii) (k : nat) :
  c <> d -> count_occ ascii_dec (repeat c k) d = 0%nat.
Proof.
  intros Hne. induction k as [|k IH]; simpl; [reflexivity|].
  destruct (ascii_dec c d); [contradiction | assumption].
Qed.

Lemma hashes_ljust10 (k : nat) :
  hashes (ljust10 (string_of_list_ascii (repeat "#"%char k))) = k.
Proof.
  unfold hashes, ljust10.
  rewrite list_of_string_app, !list_ascii_of_string_of_list_ascii, count_occ_app.
  rewrite count_occ_repeat_same, count_occ_repeat_other; [lia | discriminate].
Qed.

Lemma length_string_of_list (l : list ascii) :
  String.length (string_of_list_ascii l) = List.length l.
Proof.
  induction l as [|c l IH]; simpl; [reflexivity | now rewrite IH].
Qed.

(** The bar: [k] filled segments, then spaces up to 10 columns. *)
Lemma ljust10_layout (k : nat) :
  ljust10 (string_of_list_ascii (repeat "#"%char k)) =
  string_of_list_ascii (repeat "#"%char k ++ repeat " "%char (10 - k)).
Proof.
  unfold ljust10. now rewrite string_of_list_app, length_string_of_list, repeat_length.
Qed.

Lemma py_len_ljust10 (k : nat) :
  py_len (ljust10 (string_of_list_ascii (repeat "#"%char k))) = Nat.max 10 k.
Proof.
  rewrite ljust10_layout, string_of_list_app, py_len_app, !py_len_repeat by reflexivity.
  lia.
Qed.

(** The first [n] characters: a part of the string that ends between two
    characters. *)
Lemma take_chars_truncates (s : string) :
  forall n,
  exists rest,
    s = (take_chars n s ++ rest)%string /\
    py_len (take_chars n s) = Nat.min n (py_len s) /\
    match rest with
    | EmptyString => True
    | String c _ => continues c = false
    end.
Proof.
  induction s as [|c s IH]; intros n.
  - exists EmptyString. simpl. repeat split. now rewrite Nat.min_0_r.
  - cbn [take_chars py_len]. destruct (continues c) eqn:Ec.
    + destruct (IH n) as [rest [Hs [Hlen Hcut]]]. exists rest.
      cbn [append py_len]. rewrite Ec, <- Hs. now repeat split.
    + destruct n as [|n].
      * exists (String c s). now repeat split.
      * destruct (IH n) as [rest [Hs [Hlen Hcut]]]. exists rest.
        cbn [append py_len]. rewrite Ec, <- Hs, Hlen. now repeat split.
Qed.

Lemma py_slice_truncates (n : nat) (x shown : pyval) :
  py_slice_to n x = Ok shown -> truncated_to n x shown.
Proof.
  destruct x; simpl; try discriminate; intros [= <-]; simpl.
  - apply take_chars_truncates.
  - reflexivity.
Qed.

Lemma py_int_defined (n : num) (q : Q) :
  value n = XFin q -> exists z, py_int n = Ok z.
Proof.
  destruct n as [k|f]; simpl; [now exists k|].
  unfold float_value, sf_value.
  destruct (Prim2SF f) as [s|s| |s m e]; try discriminate.
  - now exists 0%Z.
  - now destruct s.
  - eexists. reflexivity.
Qed.

Lemma tenfold_times10 (n : num) : value (times10 n) = tenfold n.
Proof. now destruct n. Qed.

Lemma py_getitem_field (i : pyval) (k : string) (v : pyval) :
  py_getitem i k = Ok v -> field k i = Some v.
Proof.
  unfold py_getitem, field. destruct i as [| | | | | |kvs]; try discriminate.
  destruct (dict_lookup k kvs); [now intros [= <-] | discriminate].
Qed.

Section Machine.

Variable memory : Z.

Abbreviation status_line := (status_line memory).

(** [status] prints every record that has a string for its pattern and a
    confidence from 0 to 1, or none, on a machine that can hold a string of
    10 characters. *)
Lemma status_line_conventional (kvs : list (string * pyval)) (s : string)
  (conf : num) (v : Q) :
  (10 <= memory)%Z ->
  dict_lookup "pattern" kvs = Some (PStr s) ->
  confidence_key (PDict kvs) = Ok conf ->
  value conf = XFin v -> (0 <= v <= 1)%Q ->
  exists bar,
    status_line (PDict kvs) = Ok (StatusLine conf bar (PStr (take_chars 60 s))).
Proof.
  intros Hmem Hpat Hconf Hv Hunit.
  destruct (RoundFacts.times10_range _ _ Hv Hunit) as [q [Hq Hrange]].
  destruct (py_int_defined _ _ Hq) as [z Hz].
  destruct (py_int_floor _ _ Hz) as [q' [Hq' Hfloor]].
  rewrite Hq in Hq'. injection Hq' as <-.
  assert (Hfl : exists f, py_float conf = Ok f).
  { destruct conf as [k|f]; [|now exists f].
    simpl in Hv. injection Hv as <-. destruct Hunit as [H0 H1].
    unfold Qle in H0, H1. cbn [Qnum Qden] in H0, H1.
    assert (Hk : k = 0%Z \/ k = 1%Z) by lia.
    destruct Hk as [-> | ->]; eexists; reflexivity. }
  destruct Hfl as [f Hf].
  unfold InstinctCli.status_line. rewrite Hconf. cbn [bind]. rewrite Hz. cbn [bind].
  unfold str_times.
  assert (Hsmall : ((maxsize <? z) || (Z.max 0 memory <? z))%Z = false).
  { apply orb_false_iff. split; apply Z.ltb_ge.
    - unfold maxsize. change (2 ^ 63 - 1)%Z with 9223372036854775807%Z. lia.
    - lia. }
  rewrite Hsmall. cbn [bind]. rewrite Hf. cbn [bind py_getitem]. rewrite Hpat.
  cbn [bind py_slice_to]. eexists. reflexivity.
Qed.

(** C6, amended.  On the line of a record that [status] prints, with [q] the
    value of [confidence * 10] as Python computes it, for the confidence in
    the field of the record: the bar is [max(0, floor(q))] filled segments
    followed by spaces up to 10 columns, so it is as wide as the larger of 10
    and that count; it shows [floor(q)] segments out of 10 when
    [0 <= floor(q) <= 10], which is the case for every confidence from 0 to 1,
    and no filled segment for a confidence below 0; the pattern is cut to its
    first 60 characters at most. *)
Theorem status_bar_and_pattern (i : pyval) (conf : num) (bar : string) (shown : pyval) :
  status_line i = Ok (StatusLine conf bar shown) ->
  conf = stated_or_zero i /\
  (exists q,
     tenfold conf = XFin q /\
     Z.of_nat (hashes bar) = Z.max 0 (Qfloor q) /\
     bar = string_of_list_ascii
             (repeat "#"%char (hashes bar) ++ repeat " "%char (10 - hashes bar)) /\
     py_len bar = Nat.max 10 (hashes bar) /\
     ((0 <= Qfloor q <= 10)%Z ->
      Z.of_nat (hashes bar) = Qfloor q /\ py_len bar = 10%nat) /\
     (forall v, value conf = XFin v -> (0 <= v <= 1)%Q ->
      Z.of_nat (hashes bar) = Qfloor q /\ py_len bar = 10%nat) /\
     (forall v, value conf = XFin v -> (v < 0)%Q -> hashes bar = 0%nat)) /\
  (exists pattern,
     field "pattern" i = Some pattern /\ truncated_to 60 pattern shown).
Proof.
  unfold InstinctCli.status_line.
  destruct (confidence_key i) as [c|] eqn:Ec; cbn [bind]; [|discriminate].
  destruct (py_int (times10 c)) as [z|] eqn:Ez; cbn [bind]; [|discriminate].
  unfold str_times.
  destruct ((maxsize <? z) || (Z.max 0 memory <? z))%Z; cbn [bind]; [discriminate|].
  destruct (py_float c) as [f|]; cbn [bind]; [|discriminate].
  destruct (py_getitem i "pattern") as [pattern|] eqn:Ep; cbn [bind]; [|discriminate].
  destruct (py_slice_to 60 pattern) as [shown'|] eqn:Es; cbn [bind]; [|discriminate].
  intros [= <- <- <-].
  destruct (py_int_floor _ _ Ez) as [q [Hq Hfloor]].
  rewrite tenfold_times10 in Hq.
  pose proof (hashes_ljust10 (Z.to_nat z)) as Hh.
  pose proof (py_len_ljust10 (Z.to_nat z)) as Hl.
  split; [exact (StatusProps.confidence_key_stated _ _ Ec)|]. split.
  - exists q. rewrite Hh, Hl. split; [assumption|]. split; [lia|].
    split; [apply ljust10_layout|]. split; [lia|]. split; [lia|]. split.
    + intros v Hv Hunit.
      destruct (RoundFacts.times10_range _ _ Hv Hunit) as [q' [Hq' Hrange]].
      rewrite tenfold_times10, Hq in Hq'. injection Hq' as <-. lia.
    + intros v Hv Hneg.
      pose proof (RoundFacts.tenfold_negative _ _ _ Hv Hneg Hq) as Hle.
      assert (Hfl : (Qfloor q <= 0)%Z).
      { destruct (Z_le_gt_dec (Qfloor q) 0) as [H|H]; [exact H|]. exfalso.
        assert (H1 : (1 <= Qfloor q)%Z) by lia.
        pose proof (Qfloor_le q) as Hq1.
        assert (H2 : (inject_Z 1 <= inject_Z (Qfloor q))%Q)
          by (rewrite <- Zle_Qle; exact H1).
        assert (H3 : (inject_Z 1 <= 0)%Q)
          by (eapply Qle_trans; [exact H2 | eapply Qle_trans; [exact Hq1 | exact Hle]]).
        unfold Qle in H3. cbn in H3. lia. }
      lia.
  - exists pattern. split; [now apply py_getitem_field | now apply py_slice_truncates].
Qed.

End Machine.

(** C6 as stated does not hold for every confidence a record may hold.  A
    record of confidence 1.5 is printed with 15 filled segments in a bar of 15
    columns, not 10; for a record of confidence -0.5 the floor of
    [confidence * 10] is -5 and the bar has no filled segment. *)
Lemma status_bar_outside_unit_interval :
  (exists bar,
     status_line 1000 (PDict [("pattern", PStr "p"); ("confidence", PFloat 1.5)])
       = Ok (StatusLine (NFloat 1.5) bar (PStr "p")) /\
     hashes bar = 15%nat /\ py_len bar = 15%nat) /\
  (exists bar q,
     status_line 1000 (PDict [("pattern", PStr "p"); ("confidence", PFloat (-0.5))])
       = Ok (StatusLine (NFloat (-0.5)) bar (PStr "p")) /\
     tenfold (NFloat (-0.5)) = XFin q /\ Qfloor q = (-5)%Z /\
     hashes bar = 0%nat).
Proof.
  split.
  - exists "###############". repeat split.
  - eexists "          ", _. split; [reflexivity|]. split; [vm_compute; reflexivity|].
    split; reflexivity.
Qed.

(** C6, on a record of confidence 0.75 whose pattern has 63 characters, ten
    of them written in two bytes each: the line shows 7 filled segments and
    the first 60 characters. *)
Lemma status_bar_and_pattern_witness :
  let pattern := "01234567890123456789012345678901234567890123456789éééééééééé+++" in
  let shown := "01234567890123456789012345678901234567890123456789éééééééééé" in
  let i := PDict [("id", PStr "a"); ("pattern", PStr pattern); ("confidence", PFloat 0.75)] in
  NFloat 0.75 = stated_or_zero i /\
  (exists q,
     tenfold (NFloat 0.75) = XFin q /\
     Z.of_nat (hashes "#######   ") = Z.max 0 (Qfloor q) /\
     "#######   " = string_of_list_ascii
             (repeat "#"%char (hashes "#######   ")
              ++ repeat " "%char (10 - hashes "#######   ")) /\
     py_len "#######   " = Nat.max 10 (hashes "#######   ") /\
     ((0 <= Qfloor q <= 10)%Z ->
      Z.of_nat (hashes "#######   ") = Qfloor q /\ py_len "#######   " = 10%nat) /\
     (forall v, value (NFloat 0.75) = XFin v -> (0 <= v <= 1)%Q ->
      Z.of_nat (hashes "#######   ") = Qfloor q /\ py_len "#######   " = 10%nat) /\
     (forall v, value (NFloat 0.75) = XFin v -> (v < 0)%Q ->
      hashes "#######   " = 0%nat)) /\
  (exists p,
     field "pattern" i = Some p /\ truncated_to 60 p (PStr shown)).
Proof.
  cbv zeta.
  apply (status_bar_and_pattern 1000
    (PDict [("id", PStr "a");
            ("pattern",
             PStr "01234567890123456789012345678901234567890123456789éééééééééé+++");
            ("confidence", PFloat 0.75)])).
  vm_compute. reflexivity.
Defined.

End BarProps.

(** * Keys *)

Module KeyFacts.
Import Py Num NumSpec CliSpec NumFacts.

Lemma is_nan_value (f : float) : is_nan f = true -> float_value f = XNaN.
Proof.
  intros H. unfold float_value, sf_value, Prim2SF. now rewrite H.
Qed.

Lemma not_nan_value (f : float) : is_nan f = false -> float_value f <> XNaN.
Proof.
  intros H. unfold float_value, sf_value, Prim2SF. rewrite H.
  destruct (is_zero f); [discriminate|].
  destruct (is_infinity f); [now destruct (get_sign f)|].
  destruct (Z.frexp f) as [r e].
  destruct (shr_fexp prec emax (Uint63.to_Z (normfr_mantissa r)) (e - prec) loc_Exact)
    as [shr e'].
  destruct (shr_m shr); discriminate.
Qed.

Lemma py_eq_refl (n : num) : not_nan n -> py_eq n n = true.
Proof.
  unfold not_nan, py_eq, compare. destruct (value n) as [| |q|]; simpl; try tauto.
  intros _. assert (E : (q ?= q)%Q = Eq) by (apply Qeq_alt; reflexivity).
  now rewrite E.
Qed.

Lemma py_eq_nan_l (m n : num) : value m = XNaN -> py_eq m n = false.
Proof.
  unfold py_eq, compare. now intros ->.
Qed.

Lemma key_eq_refl (c : pyval) : hashable c = true -> key_eq c c = true.
Proof.
  destruct c as [|b|z|f|s|l|kvs]; simpl; try discriminate; intros _.
  - reflexivity.
  - apply py_eq_refl. unfold not_nan. simpl. discriminate.
  - apply py_eq_refl. unfold not_nan. simpl. discriminate.
  - destruct (is_nan f) eqn:E; [reflexivity|]. simpl.
    apply py_eq_refl. unfold not_nan. simpl. now apply not_nan_value.
  - apply String.eqb_refl.
Qed.

Lemma key_eq_sym (a b : pyval) : key_eq a b = key_eq b a.
Proof.
  assert (Hnum : forall m n, as_num a = Some m -> as_num b = Some n ->
            (is_nan_key a && is_nan_key b) || py_eq m n =
            (is_nan_key b && is_nan_key a) || py_eq n m).
  { intros m n _ _. f_equal; [apply andb_comm | apply py_eq_sym]. }
  destruct a as [|x|x|x|x|x|x], b as [|y|y|y|y|y|y]; try reflexivity;
    try (apply Hnum; reflexivity).
  apply String.eqb_sym.
Qed.

Lemma key_eq_num (a b : pyval) :
  key_eq a b = true ->
  (a = PNone /\ b = PNone) \/
  (exists s, a = PStr s /\ b = PStr s) \/
  (exists m n, as_num a = Some m /\ as_num b = Some n /\
     ((is_nan_key a = true /\ is_nan_key b = true) \/
      (py_eq m n = true /\ is_nan_key a = false /\ is_nan_key b = false))).
Proof.
  assert (Hnum : forall m n, as_num a = Some m -> as_num b = Some n ->
            (is_nan_key a && is_nan_key b) || py_eq m n = true ->
            (is_nan_key a = true /\ is_nan_key b = true) \/
            (py_eq m n = true /\ is_nan_key a = false /\ is_nan_key b = false)).
  { intros m n Hm Hn H. apply orb_true_iff in H. destruct H as [H|H].
    - apply andb_true_iff in H. now left.
    - right. split; [assumption|]. split.
      + destruct a; simpl in *; try reflexivity. injection Hm as <-.
        destruct (is_nan f) eqn:E; [|reflexivity].
        rewrite py_eq_nan_l in H; [discriminate | now apply is_nan_value].
      + destruct b; simpl in *; try reflexivity. injection Hn as <-.
        destruct (is_nan f) eqn:E; [|reflexivity].
        rewrite py_eq_sym, py_eq_nan_l in H; [discriminate | now apply is_nan_value]. }
  destruct a as [|x|x|x|x|x|x], b as [|y|y|y|y|y|y]; simpl; try discriminate;
    intros H;
    try (right; right; eexists _, _; split; [reflexivity|]; split; [reflexivity|];
         now apply Hnum).
  - now left.
  - right. left. apply String.eqb_eq in H. subst. now exists y.
Qed.

Lemma key_eq_trans (a b c : pyval) :
  key_eq a b = true -> key_eq b c = true -> key_eq a c = true.
Proof.
  intros Hab Hbc.
  destruct (key_eq_num _ _ Hab) as [[-> ->]|[[s [-> ->]]|[m [n [Hm [Hn Hmn]]]]]];
    try exact Hbc.
  destruct (key_eq_num _ _ Hbc) as [[-> _]|[[s [-> _]]|[n' [k [Hn' [Hk Hnk]]]]]];
    try discriminate.
  rewrite Hn in Hn'. injection Hn' as <-.
  assert (Hgoal : (is_nan_key a && is_nan_key c) || py_eq m k = true).
  { destruct Hmn as [[Ha Hb]|[Hmn [Ha Hb]]], Hnk as [[Hb' Hc]|[Hnk [Hb' Hc]]];
      try congruence.
    - now rewrite Ha, Hc.
    - rewrite (py_eq_trans _ _ _ Hmn Hnk). apply orb_true_r. }
  destruct a as [|x|x|x|x|x|x], c as [|y|y|y|y|y|y]; simpl in *;
    try discriminate; injection Hm as <-; injection Hk as <-; exact Hgoal.
Qed.

End KeyFacts.

(** * The discount of import *)

Module DiscountProps.
Import Py Num NumSpec InstinctCli CliSpec ImportProps NumFacts FloatOrder.

Lemma xcompare_lt_iff (a b : xval) : xcompare a b = Some Lt <-> xlt a b.
Proof.
  unfold xlt. destruct a as [| |p|], b as [| |q|]; simpl;
    try (split; [discriminate | intros [H1 H2]; tauto]);
    try (split; [intros _; split; [exact I | intros H; exact H] | reflexivity]).
  split.
  - intros H. injection H as H. apply Qlt_alt in H. split.
    + now apply Qlt_le_weak.
    + now apply Qlt_not_le.
  - intros [_ H]. f_equal. apply Qlt_alt. now apply Qnot_le_lt.
Qed.

(** [max(0.3, x)] is [x] when [x] is above 0.3, and 0.3 otherwise. *)
Lemma py_max_floor_or (x : float) : floor_or x (py_max 0.3 x).
Proof.
  unfold floor_or, py_max.
  pose proof (py_lt_floats 0.3 x) as Hlt. unfold py_lt, compare in Hlt. simpl value in Hlt.
  destruct (0.3 <? x)%float.
  - left. split; [|reflexivity]. apply xcompare_lt_iff.
    destruct (xcompare (float_value 0.3) (float_value x)) as [[]|]; try discriminate Hlt.
    reflexivity.
  - right. split; [|reflexivity]. intros H. apply xcompare_lt_iff in H.
    rewrite H in Hlt. discriminate Hlt.
Qed.

Lemma stated_confidence_unique (inst : pyval) (c c0 : float) :
  stated_confidence inst c -> stated_confidence inst c0 -> c = c0.
Proof.
  intros [kvs [-> H]] [kvs0 [E H0]]. injection E as <-.
  destruct (dict_lookup "confidence" kvs) as [v|].
  - destruct H as [n [Hn Hf]], H0 as [n0 [Hn0 Hf0]]. congruence.
  - congruence.
Qed.

Lemma discounted_copy_to (inst inst' : pyval) :
  discounted_copy inst inst' -> discounted_to inst inst'.
Proof.
  intros [kvs [kvs' [c0 [-> [-> [Hc0 [Hconf _]]]]]]] c Hc.
  rewrite (stated_confidence_unique _ _ _ Hc Hc0).
  exists (py_max 0.3 (c0 - 0.1)). split; [exact Hconf | apply py_max_floor_or].
Qed.



End DiscountProps.

(** * Properties of evolve *)

Module EvolveProps.
Import Py Source Num NumSpec InstinctCli CliSpec.

(** The literal left open is on line 61 of the script. *)
Lemma evolve_open_literal : first_unterminated Code 51 evolve_source = Some 61%nat.
Proof. reflexivity. Qed.

(** The function does not compile, so that no call reaches its statements. *)
Lemma evolve_raises (line_61 : pyval -> nat -> result (list line)) (fs : store_file) :
  evolve line_61 fs = Raised.
Proof. reflexivity. Qed.

(** C7. [evolve] reports no cluster.  On a store of three records of
    confidence 0.9 and category "testing", for which the header, the three
    members and the recommendation are claimed, the run ends in the
    [SyntaxError] of line 61 and nothing is printed. *)
Theorem evolve_fails_on_a_cluster (line_61 : pyval -> nat -> result (list line)) :
  let r id :=
    PDict [("id", PStr id); ("pattern", PStr "p"); ("confidence", PFloat 0.9);
           ("category", PStr "testing")] in
  let store := [r "a"; r "b"; r "c"] in
  first_unterminated Code 51 evolve_source = Some 61%nat /\
  Forall (fun i => stated_category i = PStr "testing" /\
                   xle (float_value 0.7) (value (stated_or_zero i))) store /\
  evolve line_61 (Some store) = Raised.
Proof.
  cbv zeta. split; [reflexivity|]. split; [|reflexivity].
  repeat constructor; vm_compute; discriminate.
Qed.

End EvolveProps.

(** * Further properties of import *)

Module ImportExtra.
Import Py Num NumSpec InstinctCli CliSpec ExtraSpec ImportProps KeyFacts.

(** [max(0.3, x)] is at least 0.3, whatever [x] is, a NaN included. *)
Lemma py_max_floor (x : float) : (0.3 <=? py_max 0.3 x)%float = true.
Proof.
  unfold py_max. destruct (0.3 <? x)%float eqn:E; [|reflexivity].
  rewrite ltb_spec in E. rewrite leb_spec. unfold SFltb in E. unfold SFleb.
  destruct (SFcompare (Prim2SF 0.3) (Prim2SF x)) as [[]|]; try discriminate E.
  reflexivity.
Qed.

Lemma discount_floor (inst r : pyval) :
  discount inst = Ok r -> confidence_at_least_floor r.
Proof.
  unfold discount, py_setitem.
  destruct (py_get inst "confidence" (PFloat 0.5)) as [c|]; cbn [bind]; [|discriminate].
  destruct (to_num c) as [n|]; cbn [bind]; [|discriminate].
  destruct (py_float n) as [f|]; cbn [bind]; [|discriminate].
  destruct inst as [| | | | | |kvs]; try discriminate. intros [= <-].
  exists (dict_set "confidence" (PFloat (discounted f)) kvs), (discounted f).
  split; [reflexivity|]. split; [apply dict_lookup_set_same | apply py_max_floor].
Qed.

(** What the loop does on any file on which it ends: it appends, and counts
    what it appends. *)
Lemma import_loop_appends (existing_ids new_instincts : list pyval) :
  forall (existing : list pyval) (added : nat) (existing' : list pyval) (added' : nat),
  import_loop existing_ids new_instincts existing added = Ok (existing', added') ->
  exists appended,
    existing' = existing ++ appended /\
    added' = (added + List.length appended)%nat /\
    (List.length appended <= List.length new_instincts)%nat /\
    Forall (fun r => exists inst, In inst new_instincts /\ discount inst = Ok r) appended.
Proof.
  induction new_instincts as [|inst rest IH]; intros existing added existing' added'.
  - simpl. intros [= <- <-]. exists []. rewrite app_nil_r. simpl.
    repeat split; try lia. constructor.
  - cbn [import_loop].
    destruct (record_id inst) as [id|]; cbn [bind]; [|discriminate].
    destruct (set_mem id existing_ids); cbn [negb].
    + intros H. destruct (IH _ _ _ _ H) as [appended [H1 [H2 [H3 H4]]]].
      exists appended. repeat split; try assumption; [simpl; lia|].
      eapply Forall_impl; [|exact H4]. intros r [i [Hi Hd]]. exists i.
      split; [now right | assumption].
    + destruct (discount inst) as [inst'|] eqn:Ed; cbn [bind]; [|discriminate].
      intros H. destruct (IH _ _ _ _ H) as [appended [H1 [H2 [H3 H4]]]].
      exists (inst' :: appended). repeat split.
      * rewrite H1, <- app_assoc. reflexivity.
      * simpl. lia.
      * simpl. lia.
      * constructor; [exists inst; split; [now left | assumption]|].
        eapply Forall_impl; [|exact H4]. intros r [i [Hi Hd]]. exists i.
        split; [now right | assumption].
Qed.

(** X4. Whenever import ends, the store it saves is the store it loaded with
    records added at the end: no record of the store is removed, moved or
    changed.  The number it reports is the number of records added, which is
    at most the number of candidates, and every record added has a confidence
    of at least 0.3. *)
Theorem import_only_appends (new_instincts : list pyval) (fs fs' : store_file)
  (out : list line) :
  import_instincts new_instincts fs = Ok (fs', out) ->
  exists appended,
    fs' = Some (load_instincts fs ++ appended) /\
    out = [ImportedLine (List.length appended)] /\
    (List.length appended <= List.length new_instincts)%nat /\
    Forall confidence_at_least_floor appended.
Proof.
  unfold import_instincts.
  destruct (mapM record_id (load_instincts fs)) as [ids|]; cbn [bind]; [|discriminate].
  destruct (import_loop ids new_instincts (load_instincts fs) 0)
    as [[existing' added']|] eqn:E; cbn [bind fst snd]; [|discriminate].
  intros [= <- <-].
  destruct (import_loop_appends _ _ _ _ _ _ E) as [appended [H1 [H2 [H3 H4]]]].
  exists appended. subst. repeat split; try assumption.
  eapply Forall_impl; [|exact H4]. intros r [inst [_ Hd]].
  exact (discount_floor _ _ Hd).
Qed.

Lemma import_only_appends_witness :
  let rec_ id c := PDict [("id", PStr id); ("pattern", PStr "p"); ("confidence", PFloat c)] in
  exists appended,
    Some [rec_ "a" 0.5%float; rec_ "z" 0.3%float] = Some ([rec_ "a" 0.5%float] ++ appended) /\
    [ImportedLine 1] = [ImportedLine (List.length appended)] /\
    (List.length appended <= 2)%nat /\
    Forall confidence_at_least_floor appended.
Proof.
  cbv zeta.
  apply (import_only_appends
    [PDict [("id", PStr "a"); ("pattern", PStr "p"); ("confidence", PFloat 0.9)];
     PDict [("id", PStr "z"); ("pattern", PStr "p"); ("confidence", PFloat 0.1)]]
    (Some [PDict [("id", PStr "a"); ("pattern", PStr "p"); ("confidence", PFloat 0.5)]])).
  vm_compute. reflexivity.
Defined.

Lemma mapM_raises {A B : Type} (f : A -> result B) (l : list A) :
  Exists (fun x => f x = Raised) l -> mapM f l = Raised.
Proof.
  induction 1 as [x l Hx|x l _ IH]; simpl.
  - now rewrite Hx.
  - destruct (f x); cbn [bind]; [|reflexivity]. now rewrite IH.
Qed.

Lemma import_loop_raises (existing_ids new_instincts : list pyval) :
  Exists (fun inst => record_id inst = Raised) new_instincts ->
  forall existing added,
  import_loop existing_ids new_instincts existing added = Raised.
Proof.
  induction 1 as [inst rest Hx|inst rest _ IH]; intros existing added; cbn [import_loop].
  - now rewrite Hx.
  - destruct (record_id inst) as [id|]; cbn [bind]; [|reflexivity].
    destruct (negb (set_mem id existing_ids)); [|apply IH].
    destruct (discount inst); cbn [bind]; [apply IH | reflexivity].
Qed.

(** X5. One record without a usable [id] makes the whole import fail: when a
    record of the store or a candidate of the file is not an object, has no
    [id] or has an unhashable one, import raises, whatever the other
    candidates are, and so saves nothing. *)
Theorem import_fails_on_a_record_without_id
  (new_instincts : list pyval) (fs : store_file) :
  Exists (fun r => record_id r = Raised) (load_instincts fs) \/
  Exists (fun inst => record_id inst = Raised) new_instincts ->
  import_instincts new_instincts fs = Raised.
Proof.
  intros [H|H]; unfold import_instincts.
  - now rewrite (mapM_raises _ _ H).
  - destruct (mapM record_id (load_instincts fs)); cbn [bind]; [|reflexivity].
    now rewrite (import_loop_raises _ _ H).
Qed.

Lemma import_fails_on_a_record_without_id_witness :
  import_instincts
    [PDict [("id", PStr "z"); ("confidence", PFloat 0.9)];
     PDict [("pattern", PStr "no id")];
     PDict [("id", PStr "y")]]
    (Some [PDict [("id", PStr "a")]]) = Raised.
Proof.
  apply import_fails_on_a_record_without_id.
  right. apply Exists_cons_tl. apply Exists_cons_hd. reflexivity.
Defined.

Lemma discounted_copy_has_id (inst r id : pyval) :
  has_id inst id -> discounted_copy inst r -> has_id r id.
Proof.
  intros [kvs [E [Hid Hh]]] [kvs0 [kvs' [c [E0 [-> [_ [_ Hother]]]]]]].
  subst inst. injection E0 as <-. exists kvs'. split; [reflexivity|]. split; [|assumption].
  rewrite Hother; [assumption | discriminate].
Qed.

Lemma Forall2_in_l {A B : Type} (R : A -> B -> Prop) (l : list A) (l' : list B) (x : A) :
  Forall2 R l l' -> In x l -> exists y, In y l' /\ R x y.
Proof.
  induction 1 as [|a b l l' Hab _ IH]; intros Hin; [destruct Hin|].
  destruct Hin as [->|Hin].
  - exists b. split; [now left | assumption].
  - destruct (IH Hin) as [y [Hy Hxy]]. exists y. split; [now right | assumption].
Qed.

Lemma Forall2_in_r {A B : Type} (R : A -> B -> Prop) (l : list A) (l' : list B) (y : B) :
  Forall2 R l l' -> In y l' -> exists x, In x l /\ R x y.
Proof.
  induction 1 as [|a b l l' Hab _ IH]; intros Hin; [destruct Hin|].
  destruct Hin as [->|Hin].
  - exists a. split; [now left | assumption].
  - destruct (IH Hin) as [x [Hx Hxy]]. exists x. split; [now right | assumption].
Qed.

Lemma set_mem_in (id : pyval) (store : list pyval) (r : pyval) :
  In r store -> key_eq id (id_of r) = true -> set_mem id (ids_of store) = true.
Proof.
  intros Hin Heq. unfold set_mem, ids_of. apply existsb_exists.
  exists (id_of r). split; [now apply in_map | assumption].
Qed.

(** X6. Importing a file a second time adds nothing: after an import of a
    file of well-formed candidates, the import of the same file reports zero
    additions and saves the store as the first import left it, also when the
    file names a new [id] twice. *)
Theorem import_twice_adds_nothing (fs : store_file) (new_instincts : list pyval) :
  Forall (fun r => exists id, has_id r id) (load_instincts fs) ->
  Forall (fun inst => exists id, has_id inst id /\
            (is_new (load_instincts fs) inst = true ->
             exists c, stated_confidence inst c))
         new_instincts ->
  exists fs1 n,
    import_instincts new_instincts fs = Ok (fs1, [ImportedLine n]) /\
    import_instincts new_instincts fs1 = Ok (fs1, [ImportedLine 0]).
Proof.
  intros Hstore Hnew.
  destruct (import_loop_spec (ids_of (load_instincts fs)) new_instincts
              (load_instincts fs) 0) as [appended [Hrun Hcopies]].
  { eapply Forall_impl; [|exact Hnew]. intros inst [id [Hid Hc]].
    exists id. split; [assumption|]. intros Hmem. apply Hc.
    unfold is_new. now rewrite (has_id_id_of _ _ Hid), Hmem. }
  fold (is_new (load_instincts fs)) in Hcopies.
  exists (Some (load_instincts fs ++ appended)), (List.length appended). split.
  { unfold import_instincts. rewrite (mapM_record_id _ Hstore). cbn [bind].
    now rewrite Hrun. }
  assert (Hstore1 : Forall (fun r => exists id, has_id r id)
                      (load_instincts fs ++ appended)).
  { apply Forall_app. split; [assumption|]. rewrite Forall_forall. intros r Hr.
    destruct (Forall2_in_r _ _ _ _ Hcopies Hr) as [inst [Hinst Hcopy]].
    apply filter_In in Hinst. destruct Hinst as [Hinst _].
    rewrite Forall_forall in Hnew. destruct (Hnew inst Hinst) as [id [Hid _]].
    exists id. exact (discounted_copy_has_id _ _ _ Hid Hcopy). }
  assert (Hmem : Forall (fun inst => exists id, has_id inst id /\
            set_mem id (ids_of (load_instincts fs ++ appended)) = true) new_instincts).
  { rewrite Forall_forall in Hnew |- *. intros inst Hinst.
    destruct (Hnew inst Hinst) as [id [Hid _]]. exists id. split; [assumption|].
    destruct (is_new (load_instincts fs) inst) eqn:En.
    - assert (Hf : In inst (filter (is_new (load_instincts fs)) new_instincts))
        by (apply filter_In; now split).
      destruct (Forall2_in_l _ _ _ _ Hcopies Hf) as [r [Hr Hcopy]].
      apply (set_mem_in id _ r); [apply in_or_app; now right|].
      rewrite (discounted_copy_id _ _ Hcopy), (has_id_id_of _ _ Hid).
      apply key_eq_refl. now destruct Hid as [kvs [_ [_ Hh]]].
    - unfold is_new in En. rewrite (has_id_id_of _ _ Hid) in En.
      apply negb_false_iff in En. unfold set_mem, ids_of in *.
      rewrite map_app, existsb_app, En. reflexivity. }
  destruct (import_loop_spec (ids_of (load_instincts fs ++ appended)) new_instincts
              (load_instincts fs ++ appended) 0) as [appended2 [Hrun2 Hcopies2]].
  { eapply Forall_impl; [|exact Hmem]. intros inst [id [Hid Hyes]].
    exists id. split; [assumption|]. intros Hno. rewrite Hyes in Hno. discriminate Hno. }
  rewrite filter_none in Hcopies2.
  - inversion Hcopies2; subst. unfold import_instincts. cbn [load_instincts].
    rewrite (mapM_record_id _ Hstore1). cbn [bind]. rewrite Hrun2.
    cbn [bind fst snd save_instincts]. now rewrite app_nil_r.
  - eapply Forall_impl; [|exact Hmem]. intros inst [id [Hid Hyes]].
    now rewrite (has_id_id_of _ _ Hid), Hyes.
Qed.

Lemma import_twice_adds_nothing_witness :
  let rec_ id c := PDict [("id", PStr id); ("pattern", PStr "p"); ("confidence", PFloat c)] in
  exists fs1 n,
    import_instincts [rec_ "z" 0.9%float; rec_ "a" 1%float; rec_ "z" 0.5%float]
                     (Some [rec_ "a" 0.5%float]) = Ok (fs1, [ImportedLine n]) /\
    import_instincts [rec_ "z" 0.9%float; rec_ "a" 1%float; rec_ "z" 0.5%float]
                     fs1 = Ok (fs1, [ImportedLine 0]).
Proof.
  cbv zeta.
  apply (import_twice_adds_nothing
    (Some [PDict [("id", PStr "a"); ("pattern", PStr "p"); ("confidence", PFloat 0.5)]])).
  - repeat constructor. eexists. eexists. repeat split.
  - repeat constructor; eexists; (split; [eexists; repeat split|]); intros _;
      eexists; eexists; (split; [reflexivity|]); cbn;
      eexists; split; reflexivity.
Defined.

End ImportExtra.

(** * Further properties of the grouping of evolve *)

Module EvolveExtra.
Import Py Num NumSpec InstinctCli CliSpec ExtraSpec KeyFacts.

(** The key of a record in [categories] is what its field [category] holds,
    "general" when it has no such field; it is a hashable value. *)
Lemma category_of_stated (i c : pyval) :
  category_of i = Ok c -> c = stated_category i /\ hashable c = true.
Proof.
  unfold category_of, py_get, stated_category, field, hash_key.
  destruct i as [| | | | | |kvs]; try discriminate.
  destruct (dict_lookup "category" kvs) as [v|]; cbn [bind].
  - destruct (hashable v) eqn:Hh; [|discriminate]. now intros [= <-].
  - now intros [= <-].
Qed.

Lemma setdefault_perm (c i : pyval) (L : list (pyval * list pyval)) :
  Permutation (List.concat (map snd (setdefault_append c i L)))
              (i :: List.concat (map snd L)).
Proof.
  induction L as [|[c' items] L IH]; simpl.
  - apply Permutation_refl.
  - destruct (key_eq c c'); simpl.
    + rewrite <- app_assoc. simpl. apply Permutation_sym, Permutation_middle.
    + apply Permutation_trans with (items ++ i :: List.concat (map snd L)).
      * now apply Permutation_app_head.
      * apply Permutation_sym, Permutation_middle.
Qed.

Lemma setdefault_keys (P : pyval -> Prop) (c i : pyval) (L : list (pyval * list pyval)) :
  P c -> Forall (fun e => P (fst e)) L ->
  Forall (fun e => P (fst e)) (setdefault_append c i L).
Proof.
  intros Pc. induction 1 as [|[c' items] L Pe HL IH]; simpl.
  - now repeat constructor.
  - destruct (key_eq c c'); constructor; assumption.
Qed.

Lemma setdefault_distinct (c i : pyval) (L : list (pyval * list pyval)) :
  distinct_groups L -> distinct_groups (setdefault_append c i L).
Proof.
  unfold distinct_groups. induction 1 as [|[c' items] L Hhd HL IH]; simpl.
  - constructor; constructor.
  - destruct (key_eq c c') eqn:E.
    + constructor; assumption.
    + constructor; [|assumption].
      apply (setdefault_keys (fun k => key_eq c' k = false)).
      * now rewrite key_eq_sym.
      * exact Hhd.
Qed.

Lemma setdefault_groups (c i : pyval) (L : list (pyval * list pyval)) :
  hashable c = true -> stated_category i = c ->
  Forall same_category_group L ->
  Forall same_category_group (setdefault_append c i L).
Proof.
  intros Hh Hc. induction 1 as [|[c' items] L [Hne Hcl] HL IH]; simpl.
  - constructor; [|constructor]. split; [discriminate|].
    constructor; [|constructor]. simpl. rewrite Hc. now apply key_eq_refl.
  - destruct (key_eq c c') eqn:E.
    + constructor; [|assumption]. split; simpl in *.
      * intros Happ. apply app_eq_nil in Happ. destruct Happ as [_ Hi]. discriminate Hi.
      * apply Forall_app. split; [assumption|].
        constructor; [|constructor]. now rewrite Hc.
    + constructor; [now split | assumption].
Qed.

Lemma group_loop_partition (strong : list pyval) :
  forall (categories : list (pyval * list pyval)) (seen : list pyval),
  Forall (fun i => exists c, category_of i = Ok c) strong ->
  Permutation (List.concat (map snd categories)) seen ->
  distinct_groups categories ->
  Forall same_category_group categories ->
  exists categories',
    group_loop strong categories = Ok categories' /\
    Permutation (List.concat (map snd categories')) (seen ++ strong) /\
    distinct_groups categories' /\
    Forall same_category_group categories'.
Proof.
  induction strong as [|i rest IH]; intros categories seen Hcat Hperm Hdist Hgroups.
  - exists categories. rewrite app_nil_r. repeat split; assumption.
  - inversion Hcat as [|? ? [c Hi] Hrest]; subst.
    destruct (category_of_stated _ _ Hi) as [Hc Hh].
    cbn [group_loop]. rewrite Hi. cbn [bind].
    destruct (IH (setdefault_append c i categories) (seen ++ [i]) Hrest)
      as [categories' [Hrun [Hp [Hd Hg]]]].
    + apply Permutation_trans with (i :: List.concat (map snd categories)).
      * apply setdefault_perm.
      * apply Permutation_trans with (i :: seen); [now apply perm_skip|].
        apply Permutation_cons_append.
    + now apply setdefault_distinct.
    + apply setdefault_groups; [assumption | now symmetry | assumption].
    + exists categories'. rewrite <- app_assoc in Hp. repeat split; assumption.
Qed.



End EvolveExtra.

(** * Properties of the program as a whole *)

Module ProgramProps.
Import Py Num NumSpec InstinctCli Program CliSpec ExtraSpec ImportProps KeyFacts.
Import DiscountProps.

Lemma on_store_ok (command : store_file -> result (store_file * list line))
  (w w' : world) (out : list printed) :
  on_store command w = Ok (w', out) ->
  exists fs' lines,
    command (store w) = Ok (fs', lines) /\
    w' = {| store := fs'; files := files w |} /\ out = map Printed lines.
Proof.
  unfold on_store. destruct (command (store w)) as [[fs' lines]|];
    cbn [bind fst snd]; [|discriminate].
  intros [= <- <-]. now exists fs', lines.
Qed.

(** The import of the records of the store itself finds every id. *)
Lemma import_of_the_store_itself (fs : store_file) :
  Forall (fun r => exists id, has_id r id) (load_instincts fs) ->
  import_instincts (load_instincts fs) fs
    = Ok (Some (load_instincts fs), [ImportedLine 0]).
Proof.
  intros Hstore.
  assert (Hknown : Forall (fun inst => exists id, has_id inst id /\
            set_mem id (ids_of (load_instincts fs)) = true) (load_instincts fs)).
  { rewrite Forall_forall in Hstore |- *. intros inst Hin.
    destruct (Hstore inst Hin) as [id Hid]. exists id. split; [assumption|].
    apply (ImportExtra.set_mem_in id _ inst Hin).
    rewrite (has_id_id_of _ _ Hid). apply key_eq_refl.
    now destruct Hid as [kvs [_ [_ Hh]]]. }
  unfold import_instincts. rewrite (mapM_record_id _ Hstore). cbn [bind].
  destruct (import_loop_spec (ids_of (load_instincts fs)) (load_instincts fs)
              (load_instincts fs) 0) as [appended [Hrun Hcopies]].
  - eapply Forall_impl; [|exact Hknown]. intros inst [id [Hid Hyes]].
    exists id. split; [assumption|]. intros Hno. rewrite Hyes in Hno. discriminate Hno.
  - rewrite filter_none in Hcopies.
    + inversion Hcopies; subst. rewrite Hrun. cbn [bind fst snd save_instincts].
      now rewrite app_nil_r.
    + eapply Forall_impl; [|exact Hknown]. intros inst [id [Hid Hyes]].
      now rewrite (has_id_id_of _ _ Hid), Hyes.
Qed.

Lemma filter_all {A : Type} (f : A -> bool) (l : list A) :
  Forall (fun x => f x = true) l -> filter f l = l.
Proof.
  induction 1 as [|x l Hx _ IH]; simpl; [reflexivity | now rewrite Hx, IH].
Qed.

(** The import into a store that holds no record takes every candidate. *)
Lemma import_into_an_empty_store (new_instincts : list pyval) :
  Forall (fun r => (exists id, has_id r id) /\ exists c, stated_confidence r c)
         new_instincts ->
  exists appended,
    import_instincts new_instincts (Some [])
      = Ok (Some appended, [ImportedLine (List.length new_instincts)]) /\
    Forall2 discounted_copy new_instincts appended /\
    Forall2 discounted_to new_instincts appended.
Proof.
  intros Hall. unfold import_instincts. cbn [load_instincts mapM bind].
  destruct (import_loop_spec [] new_instincts [] 0) as [appended [Hrun Hcopies]].
  - eapply Forall_impl; [|exact Hall]. intros inst [[id Hid] Hc].
    exists id. split; [assumption | now intros _].
  - rewrite filter_all in Hcopies by (rewrite Forall_forall; reflexivity).
    exists appended. rewrite Hrun. cbn [bind fst snd save_instincts app Nat.add].
    rewrite (Forall2_length Hcopies). split; [reflexivity|]. split; [exact Hcopies|].
    eapply Forall2_impl; [|exact Hcopies]. exact discounted_copy_to.
Qed.

Lemma chars_nonempty (c : ascii) (s : string) :
  exists h t, chars (String c s) = h :: t.
Proof.
  cbn [chars]. destruct s as [|d s]; [now eexists; eexists|].
  destruct (continues d); [|now eexists; eexists].
  destruct (chars (String d s)); now eexists; eexists.
Qed.

Section Paths.

Variable file_of : string -> string.
Variable in_instincts_dir : string -> string.
Variable writable : string -> bool.

Abbreviation is_store := (is_store file_of in_instincts_dir).
Abbreviation read_json := (read_json file_of in_instincts_dir).
Abbreviation write_json := (write_json file_of in_instincts_dir writable).
Abbreviation export_instincts := (export_instincts file_of in_instincts_dir writable).
Abbreviation import_from := (import_from file_of in_instincts_dir).

Lemma read_back (path : string) (instincts : list pyval) (w w' : world) :
  write_json path instincts w = Ok w' ->
  read_json path w' = Ok (PList instincts).
Proof.
  unfold Program.read_json, Program.write_json.
  destruct (writable path); cbn [negb]; [|discriminate].
  destruct (is_store path) eqn:E; intros [= <-]; cbn [store files]; [reflexivity|].
  now rewrite String.eqb_refl.
Qed.

Lemma store_after_write (path : string) (w w' : world) :
  write_json path (load_instincts (store w)) w = Ok w' ->
  load_instincts (store w') = load_instincts (store w).
Proof.
  unfold Program.write_json.
  destruct (writable path); cbn [negb]; [|discriminate].
  now destruct (is_store path); intros [= <-].
Qed.

(** X12. [export_instincts] followed by [import_instincts] of the exported
    file adds nothing: when a file can be written at the path and every
    record of the store has an [id], the export prints the number of records,
    the import finds each record in the store and reports zero additions, and
    the records of the store and the other files are as the export left
    them. *)
Theorem export_then_import_adds_nothing (path today : string) (w : world) :
  writable path = true ->
  Forall (fun r => exists id, has_id r id) (load_instincts (store w)) ->
  exists w1 w2,
    export_instincts (Some path) today w
      = Ok (w1, [ExportedLine (List.length (load_instincts (store w))) path]) /\
    import_from path w1 = Ok (w2, [Printed (ImportedLine 0)]) /\
    load_instincts (store w2) = load_instincts (store w) /\
    files w2 = files w1.
Proof.
  intros Hw Hstore.
  destruct (write_json path (load_instincts (store w)) w) as [w1|] eqn:Ew.
  - pose proof (store_after_write _ _ _ Ew) as Hsame.
    exists w1. eexists. unfold Program.export_instincts. cbv zeta. rewrite Ew.
    cbn [bind]. split; [reflexivity|].
    unfold Program.import_from. rewrite (read_back _ _ _ _ Ew). cbn [bind py_iter].
    unfold on_store. rewrite <- Hsame.
    rewrite import_of_the_store_itself by (now rewrite Hsame).
    cbn [bind fst snd map]. split; [reflexivity|]. cbn [store files].
    split; reflexivity.
  - exfalso. revert Ew. unfold Program.write_json. rewrite Hw. cbn [negb].
    destruct (is_store path); discriminate.
Qed.


(** X14. The import of a file that holds no array.  An empty object or an
    empty string is read as a file without candidates: zero additions.  Any
    other value (a number, a boolean, [null], an object with a key, a string
    with a character) ends the import in an exception, and nothing is
    saved. *)
Theorem import_of_a_file_without_array (path : string) (w : world) (v : pyval) :
  is_store path = false ->
  files w (file_of path) = Some v ->
  (forall l, v <> PList l) ->
  (v = PDict [] \/ v = PStr "" ->
   Forall (fun r => exists id, has_id r id) (load_instincts (store w)) ->
   import_from path w
     = Ok ({| store := Some (load_instincts (store w)); files := files w |},
           [Printed (ImportedLine 0)])) /\
  (v <> PDict [] -> v <> PStr "" -> import_from path w = Raised).
Proof.
  intros Hpath Hfile Hlist. unfold Program.import_from, Program.read_json.
  rewrite Hpath, Hfile. cbn [bind]. split.
  - intros Hv Hstore.
    assert (Hiter : py_iter v = Ok []) by (destruct Hv as [->| ->]; reflexivity).
    rewrite Hiter. cbn [bind]. unfold on_store, import_instincts.
    rewrite (mapM_record_id _ Hstore). reflexivity.
  - intros Hd Hs.
    assert (Hiter : py_iter v = Raised \/
                    exists k rest, py_iter v = Ok (PStr k :: rest)).
    { destruct v as [| | | |s|l|kvs]; try (now left).
      - destruct s as [|c s]; [contradiction|].
        destruct (chars_nonempty c s) as [h [t Hch]].
        right. exists h, (map PStr t). cbn [py_iter]. now rewrite Hch.
      - now destruct (Hlist l).
      - destruct kvs as [|[k x] kvs]; [contradiction|]. right. eexists. eexists.
        reflexivity. }
    destruct Hiter as [->|[k [rest ->]]]; [reflexivity|]. cbn [bind].
    unfold on_store, import_instincts.
    destruct (mapM record_id (load_instincts (store w))); reflexivity.
Qed.

End Paths.

Lemma export_then_import_adds_nothing_witness :
  let w := machine (Some [record "a" 0.5; record "b" 0.75]) "in.json" (PList []) in
  exists w1 w2,
    export_instincts full_path windows_dir (fun _ => true) (Some "out.json") "20260101" w
      = Ok (w1, [ExportedLine 2 "out.json"]) /\
    import_from full_path windows_dir "out.json" w1
      = Ok (w2, [Printed (ImportedLine 0)]) /\
    load_instincts (store w2) = [record "a" 0.5; record "b" 0.75] /\
    files w2 = files w1.
Proof.
  cbv zeta.
  apply (export_then_import_adds_nothing full_path windows_dir (fun _ => true)
           "out.json" "20260101"
           (machine (Some [record "a" 0.5; record "b" 0.75]) "in.json" (PList []))).
  - reflexivity.
  - repeat constructor; eexists; eexists; repeat split.
Defined.


Lemma import_of_a_file_without_array_witness :
  let w := machine (Some [record "a" 0.5]) "in.json" (PDict [("id", PStr "z")]) in
  (PDict [("id", PStr "z")] = PDict [] \/ PDict [("id", PStr "z")] = PStr "" ->
   Forall (fun r => exists id, has_id r id) (load_instincts (store w)) ->
   import_from full_path windows_dir "in.json" w
     = Ok ({| store := Some (load_instincts (store w)); files := files w |},
           [Printed (ImportedLine 0)])) /\
  (PDict [("id", PStr "z")] <> PDict [] -> PDict [("id", PStr "z")] <> PStr "" ->
   import_from full_path windows_dir "in.json" w = Raised).
Proof.
  cbv zeta.
  apply (import_of_a_file_without_array full_path windows_dir "in.json"
           (machine (Some [record "a" 0.5]) "in.json" (PDict [("id", PStr "z")]))
           (PDict [("id", PStr "z")])).
  - reflexivity.
  - reflexivity.
  - discriminate.
Defined.

End ProgramProps.
